(** * The shopping cart of [script.js]

    A shallow embedding of the cart state management of [script.js]
    ([loadCart], [saveCart], [addToCart], [removeFromCart],
    [updateQuantity], [calculateTotal], [getTotalItems]) and the
    properties of the CartStore specification checked against it.

    Modelling conventions.
    - The module-level variable [cart] and the browser objects the cart
      code touches ([localStorage], the notification toast, the cart side
      panel) are the fields of one record, [World]; every JavaScript
      function is a computation in a state-and-exception monad over it.
    - A JavaScript number that holds an integer ([id], [quantity]) is a
      [Z].  A price is any JavaScript number: [NaN], an infinity, or a
      finite number, which is an exact signed decimal (a negative zero
      among them).  Finite numbers are added and multiplied exactly:
      the rounding and the overflow of IEEE doubles are outside the
      model.
    - Numbers are written in positional notation; the exponent notation
      that JavaScript writes from 1e21 on and below 1e-6 is read but
      never written.
    - A JavaScript string is a [string] that holds its UTF-8 bytes.  A
      code unit that a JSON text writes as a [\uXXXX] escape is held by
      its UTF-8 bytes, each half of a surrogate pair on its own.
    - [JSON.stringify] and [JSON.parse] are modelled as a printer and a
      recursive-descent parser of JSON texts; a [SyntaxError] is the
      parser's [None].
    - Rendering into the DOM ([updateCartDisplay], [updateCartBadge]) only
      reads [cart]; the DOM itself is not part of [World].
    - [localStorage] always accepts a write: quotas are not part of the
      model.
    - [loadCart] assigns to [cart] whatever [JSON.parse] returns.  When
      that is not an array of cart lines, the call is not followed any
      further: it ends with that value and with the rest of the state,
      and with no cart. *)

From Stdlib Require Import ZArith NArith QArith List String Ascii Bool Lia.
From Stdlib Require Import Decimal DecimalString DecimalFacts DecimalPos.
From Stdlib Require Import DecimalN DecimalZ.
From Stdlib Require Import Morphisms RelationClasses.
Import ListNotations.

Set Warnings "-register-all".

Local Open Scope string_scope.
Local Open Scope Z_scope.

(* ================================================================= *)
(** ** Numbers *)

(** A digit from 1 to 9: the last digit of a fractional part. *)
Inductive nzdigit : Set :=
  N1 | N2 | N3 | N4 | N5 | N6 | N7 | N8 | N9.

(** The digits after the decimal point.  [FDigits init last] stands for
    the digits [init] followed by the non-zero digit [last], so a
    fraction has exactly one representation. *)
Inductive Fraction : Set :=
| FZero
| FDigits (init : uint) (last : nzdigit).

(** The magnitude of a finite number: a decimal without its sign.  The
    sign is a field of [Number]; [NaN] and the infinities are
    constructors of [JsNumber]. *)
Record Decimal : Set := mkDecimal { ipart : N; fpart : Fraction }.

(** A number of a JSON text: sign and magnitude. *)
Record Number : Set := mkNumber { negative : bool; magnitude : Decimal }.

Definition nzdigit_value (d : nzdigit) : Z :=
  match d with
  | N1 => 1 | N2 => 2 | N3 => 3 | N4 => 4 | N5 => 5
  | N6 => 6 | N7 => 7 | N8 => 8 | N9 => 9
  end.

(** The value of the digits [u] followed by a tail of value [t]:
    each digit weighs a tenth of the one before it. *)
Fixpoint uint_fraction (u : uint) (t : Q) : Q :=
  match u with
  | Nil => t
  | D0 u' => (0 + uint_fraction u' t) / 10
  | D1 u' => (1 + uint_fraction u' t) / 10
  | D2 u' => (2 + uint_fraction u' t) / 10
  | D3 u' => (3 + uint_fraction u' t) / 10
  | D4 u' => (4 + uint_fraction u' t) / 10
  | D5 u' => (5 + uint_fraction u' t) / 10
  | D6 u' => (6 + uint_fraction u' t) / 10
  | D7 u' => (7 + uint_fraction u' t) / 10
  | D8 u' => (8 + uint_fraction u' t) / 10
  | D9 u' => (9 + uint_fraction u' t) / 10
  end%Q.

Definition Fraction_to_Q (f : Fraction) : Q :=
  match f with
  | FZero => 0
  | FDigits init last => uint_fraction init (inject_Z (nzdigit_value last) / 10)
  end%Q.

Definition Decimal_to_Q (d : Decimal) : Q :=
  (inject_Z (Z.of_N (ipart d)) + Fraction_to_Q (fpart d))%Q.

Definition Decimal_of_N (n : N) : Decimal := mkDecimal n FZero.

Definition Number_of_Z (z : Z) : Number :=
  mkNumber (z <? 0) (Decimal_of_N (Z.abs_N z)).

(** The integer a number holds, when it holds one. *)
Definition Number_to_Z (n : Number) : option Z :=
  match fpart (magnitude n) with
  | FZero =>
      let m := Z.of_N (ipart (magnitude n)) in
      Some (if negative n then - m else m)
  | FDigits _ _ => None
  end.

Definition Number_to_Q (n : Number) : Q :=
  if negative n then (- Decimal_to_Q (magnitude n))%Q
  else Decimal_to_Q (magnitude n).

(** A JavaScript number: a finite one, [NaN], or an infinity with its
    sign.  This is what [parseFloat] can give and what a price can be. *)
Inductive JsNumber : Set :=
| Finite (n : Number)
| NaN
| Infinity (minus : bool).

(** The non-negative finite number that the decimal [d] writes. *)
Definition JsNumber_of_Decimal (d : Decimal) : JsNumber :=
  Finite (mkNumber false d).

(** What the arithmetic of JavaScript gives: an exact rational, [NaN]
    or an infinity.  The sign of a zero is not kept. *)
Inductive Amount : Set :=
| Exact (q : Q)
| Undefined
| Unbounded (minus : bool).

Definition JsNumber_to_Amount (x : JsNumber) : Amount :=
  match x with
  | Finite n => Exact (Number_to_Q n)
  | NaN => Undefined
  | Infinity minus => Unbounded minus
  end.

(** [a + b]: [NaN] spreads, and so does the sum of the two infinities. *)
Definition Amount_add (a b : Amount) : Amount :=
  match a, b with
  | Exact x, Exact y => Exact (x + y)
  | Undefined, _ | _, Undefined => Undefined
  | Unbounded s, Unbounded s' =>
      if Bool.eqb s s' then Unbounded s else Undefined
  | Unbounded s, Exact _ | Exact _, Unbounded s => Unbounded s
  end.

(** [a * z] for an integer [z]: an infinity times 0 is [NaN]. *)
Definition Amount_times (a : Amount) (z : Z) : Amount :=
  match a with
  | Exact x => Exact (x * inject_Z z)
  | Undefined => Undefined
  | Unbounded s =>
      match z with
      | Z0 => Undefined
      | Zpos _ => Unbounded s
      | Zneg _ => Unbounded (negb s)
      end
  end.

(** Two amounts are the same when they are the same rational, both
    [NaN], or the same infinity. *)
Definition Amount_eq (a b : Amount) : Prop :=
  match a, b with
  | Exact x, Exact y => (x == y)%Q
  | Undefined, Undefined => True
  | Unbounded s, Unbounded s' => s = s'
  | _, _ => False
  end.

(** An amount that is a number and is not negative: zero or more, or
    the positive infinity. *)
Definition Amount_nonneg (a : Amount) : Prop :=
  match a with
  | Exact q => (0 <= q)%Q
  | Undefined => False
  | Unbounded minus => minus = false
  end.

(* ================================================================= *)
(** ** The data model *)

(** An entry of the [cart] array: the object literal that [addToCart]
    pushes. *)
Record CartLine : Set := mkCartLine {
  id : Z;
  title : string;
  price : JsNumber;
  image : string;
  quantity : Z
}.

(** The argument of [addToCart]. *)
Record Product : Set := mkProduct {
  product_id : Z;
  product_title : string;
  product_price : JsNumber;
  product_image : string
}.

Definition Cart : Set := list CartLine.

(** The values of JSON texts. *)
Inductive JsValue : Set :=
| JNull
| JBool (b : bool)
| JNum (n : Number)
| JStr (s : string)
| JArr (elements : list JsValue)
| JObj (members : list (string * JsValue)).

(* ================================================================= *)
(** ** JSON texts: [JSON.stringify] *)

(** The double quote, written by its code. *)
Definition dquote : ascii := "034"%char.

Definition hex_digit (n : N) : ascii :=
  if (n <? 10)%N then ascii_of_N (48 + n) else ascii_of_N (87 + n).

(** How [JSON.stringify] writes one character of a string: the quote and
    the backslash are escaped, control characters get their short escape
    or a [\u00XX] one, anything else stands for itself. *)
Definition escape_char (c : ascii) : string :=
  match c with
  | "034"%char => String "\" (String dquote "")
  | "\"%char => "\\"
  | "008"%char => "\b"
  | "009"%char => "\t"
  | "010"%char => "\n"
  | "012"%char => "\f"
  | "013"%char => "\r"
  | _ =>
      if (N_of_ascii c <? 32)%N
      then "\u00" ++ String (hex_digit (N_of_ascii c / 16))
                       (String (hex_digit (N_of_ascii c mod 16)) "")
      else String c ""
  end.

Fixpoint escape_string (s : string) : string :=
  match s with
  | "" => ""
  | String c rest => escape_char c ++ escape_string rest
  end.

Definition quote_string (s : string) : string :=
  String dquote (escape_string s ++ String dquote "").

Definition char_of_nzdigit (d : nzdigit) : ascii :=
  match d with
  | N1 => "1" | N2 => "2" | N3 => "3" | N4 => "4" | N5 => "5"
  | N6 => "6" | N7 => "7" | N8 => "8" | N9 => "9"
  end%char.

Definition Fraction_to_string (f : Fraction) : string :=
  match f with
  | FZero => ""
  | FDigits init last =>
      "." ++ NilEmpty.string_of_uint init ++ String (char_of_nzdigit last) ""
  end.

Definition Decimal_to_string (d : Decimal) : string :=
  NilZero.string_of_uint (N.to_uint (ipart d)) ++ Fraction_to_string (fpart d).

Definition Decimal_is_zero (d : Decimal) : bool :=
  match fpart d with
  | FZero => (ipart d =? 0)%N
  | FDigits _ _ => false
  end.

(** Numbers are written in positional notation; a negative zero is
    written [0]. *)
Definition Number_to_string (n : Number) : string :=
  (if negative n && negb (Decimal_is_zero (magnitude n)) then "-" else "")
  ++ Decimal_to_string (magnitude n).

Fixpoint JSON_stringify (v : JsValue) : string :=
  match v with
  | JNull => "null"
  | JBool true => "true"
  | JBool false => "false"
  | JNum n => Number_to_string n
  | JStr s => quote_string s
  | JArr elements =>
      "[" ++
      (fix items (vs : list JsValue) : string :=
         match vs with
         | [] => ""
         | [x] => JSON_stringify x
         | x :: vs' => JSON_stringify x ++ "," ++ items vs'
         end) elements
      ++ "]"
  | JObj members =>
      "{" ++
      (fix items (kvs : list (string * JsValue)) : string :=
         match kvs with
         | [] => ""
         | [(k, x)] => quote_string k ++ ":" ++ JSON_stringify x
         | (k, x) :: kvs' =>
             quote_string k ++ ":" ++ JSON_stringify x ++ "," ++ items kvs'
         end) members
      ++ "}"
  end.

(* ================================================================= *)
(** ** JSON texts: [JSON.parse] *)

Definition is_ws (c : ascii) : bool :=
  match c with
  | " "%char | "009"%char | "010"%char | "013"%char => true
  | _ => false
  end.

Fixpoint skip_ws (s : string) : string :=
  match s with
  | String c rest => if is_ws c then skip_ws rest else s
  | "" => ""
  end.

(** The digit a character writes, as the constructor of [uint] that puts
    it in front of the digits that follow. *)
Definition digit_of_char (c : ascii) : option (uint -> uint) :=
  match c with
  | "0"%char => Some D0 | "1"%char => Some D1 | "2"%char => Some D2
  | "3"%char => Some D3 | "4"%char => Some D4 | "5"%char => Some D5
  | "6"%char => Some D6 | "7"%char => Some D7 | "8"%char => Some D8
  | "9"%char => Some D9
  | _ => None
  end.

(** The longest run of digits at the head of [s], and what follows. *)
Fixpoint scan_digits (s : string) : uint * string :=
  match s with
  | String c rest =>
      match digit_of_char c with
      | Some k => let (u, r) := scan_digits rest in (k u, r)
      | None => (Nil, s)
      end
  | "" => (Nil, "")
  end.

(** The first digit of [u] and the digits after it. *)
Definition uint_uncons (u : uint) : option ((uint -> uint) * uint) :=
  match u with
  | Nil => None
  | D0 u' => Some (D0, u') | D1 u' => Some (D1, u') | D2 u' => Some (D2, u')
  | D3 u' => Some (D3, u') | D4 u' => Some (D4, u') | D5 u' => Some (D5, u')
  | D6 u' => Some (D6, u') | D7 u' => Some (D7, u') | D8 u' => Some (D8, u')
  | D9 u' => Some (D9, u')
  end.

Definition cons_fraction (k : uint -> uint) (nz : option nzdigit)
    (f : Fraction) : Fraction :=
  match f with
  | FZero => match nz with
             | Some l => FDigits Nil l
             | None => FZero
             end
  | FDigits i l => FDigits (k i) l
  end.

(** The fraction that the digits [u] write: trailing zeros carry no
    value and are dropped. *)
Fixpoint Fraction_of_uint (u : uint) : Fraction :=
  match u with
  | Nil => FZero
  | D0 u' => cons_fraction D0 None (Fraction_of_uint u')
  | D1 u' => cons_fraction D1 (Some N1) (Fraction_of_uint u')
  | D2 u' => cons_fraction D2 (Some N2) (Fraction_of_uint u')
  | D3 u' => cons_fraction D3 (Some N3) (Fraction_of_uint u')
  | D4 u' => cons_fraction D4 (Some N4) (Fraction_of_uint u')
  | D5 u' => cons_fraction D5 (Some N5) (Fraction_of_uint u')
  | D6 u' => cons_fraction D6 (Some N6) (Fraction_of_uint u')
  | D7 u' => cons_fraction D7 (Some N7) (Fraction_of_uint u')
  | D8 u' => cons_fraction D8 (Some N8) (Fraction_of_uint u')
  | D9 u' => cons_fraction D9 (Some N9) (Fraction_of_uint u')
  end.

(** Multiplying by ten moves the decimal point one digit to the right,
    dividing by ten one digit to the left. *)
Definition point_right (n : uint * uint) : uint * uint :=
  let (i, f) := n in
  match uint_uncons f with
  | Some (k, f') => (app i (k Nil), f')
  | None => (app i (D0 Nil), Nil)
  end.

Definition point_left (n : uint * uint) : uint * uint :=
  let (i, f) := n in
  match uint_uncons (rev i) with
  | Some (k, ri) => (rev ri, k f)
  | None => (Nil, D0 f)
  end.

Definition scale (e : Z) (n : uint * uint) : uint * uint :=
  match e with
  | Z0 => n
  | Zpos p => Pos.iter point_right n p
  | Zneg p => Pos.iter point_left n p
  end.

(** The exponent part of a number, when there is one. *)
Definition parse_exponent (s : string) : option (Z * string) :=
  match s with
  | String c rest =>
      if (Ascii.eqb c "e" || Ascii.eqb c "E")%bool then
        let (sign, digits) :=
          match rest with
          | String "-"%char r => (true, r)
          | String "+"%char r => (false, r)
          | _ => (false, rest)
          end in
        match scan_digits digits with
        | (Nil, _) => None
        | (u, r) =>
            let e := Z.of_N (N.of_uint u) in
            Some (if sign then - e else e, r)
        end
      else Some (0, s)
  | "" => Some (0, s)
  end.

(** The fraction part of a number, when there is one. *)
Definition parse_fraction (s : string) : option (uint * string) :=
  match s with
  | String "."%char rest =>
      match scan_digits rest with
      | (Nil, _) => None
      | (u, r) => Some (u, r)
      end
  | _ => Some (Nil, s)
  end.

(** The magnitude of a number: an integer part without a superfluous
    leading zero, an optional fraction part and an optional exponent
    part. *)
Definition parse_magnitude (s : string) : option (Decimal * string) :=
  match scan_digits s with
  | (Nil, _) => None
  | (D0 (D0 _ | D1 _ | D2 _ | D3 _ | D4 _ | D5 _ | D6 _ | D7 _ | D8 _ | D9 _), _) =>
      None
  | (i, s2) =>
      match parse_fraction s2 with
      | None => None
      | Some (f, s3) =>
          match parse_exponent s3 with
          | None => None
          | Some (e, s4) =>
              let (i', f') := scale e (i, f) in
              Some (mkDecimal (N.of_uint i') (Fraction_of_uint f'), s4)
          end
      end
  end.

(** A number: an optional minus sign and a magnitude. *)
Definition parse_number (s : string) : option (Number * string) :=
  match s with
  | String "-"%char r =>
      option_map (fun '(d, r') => (mkNumber true d, r')) (parse_magnitude r)
  | _ =>
      option_map (fun '(d, r') => (mkNumber false d, r')) (parse_magnitude s)
  end.

Definition hex_value (c : ascii) : option N :=
  let n := N_of_ascii c in
  if ((48 <=? n) && (n <=? 57))%N then Some (n - 48)%N
  else if ((97 <=? n) && (n <=? 102))%N then Some (n - 87)%N
  else if ((65 <=? n) && (n <=? 70))%N then Some (n - 55)%N
  else None.

(** The characters that hold the code unit [n]: itself below 128, its
    UTF-8 bytes from there on. *)
Definition string_of_code_unit (n : N) : string :=
  if (n <? 128)%N then String (ascii_of_N n) ""
  else if (n <? 2048)%N then
    String (ascii_of_N (192 + n / 64)) (String (ascii_of_N (128 + n mod 64)) "")
  else
    String (ascii_of_N (224 + n / 4096))
      (String (ascii_of_N (128 + (n / 64) mod 64))
         (String (ascii_of_N (128 + n mod 64)) "")).

Definition code_unit (h1 h2 h3 h4 : ascii) : option N :=
  match hex_value h1, hex_value h2, hex_value h3, hex_value h4 with
  | Some a, Some b, Some c, Some d => Some (((a * 16 + b) * 16 + c) * 16 + d)%N
  | _, _, _, _ => None
  end.

(** The characters of a string up to its closing quote, and what follows
    the quote.  The text is read from after the opening quote. *)
Fixpoint parse_string_body (s : string) : option (string * string) :=
  let literal (c : ascii) (rest : string) :=
    match parse_string_body rest with
    | Some (body, r) => Some (String c body, r)
    | None => None
    end in
  match s with
  | "" => None
  | String c rest =>
      if Ascii.eqb c dquote then Some ("", rest)
      else if Ascii.eqb c "\" then
        match rest with
        | String e rest' =>
            match e with
            | "034"%char => literal dquote rest'
            | "\"%char => literal "\"%char rest'
            | "/"%char => literal "/"%char rest'
            | "b"%char => literal "008"%char rest'
            | "f"%char => literal "012"%char rest'
            | "n"%char => literal "010"%char rest'
            | "r"%char => literal "013"%char rest'
            | "t"%char => literal "009"%char rest'
            | "u"%char =>
                match rest' with
                | String h1 (String h2 (String h3 (String h4 rest''))) =>
                    match code_unit h1 h2 h3 h4, parse_string_body rest'' with
                    | Some n, Some (body, r) =>
                        Some (string_of_code_unit n ++ body, r)
                    | _, _ => None
                    end
                | _ => None
                end
            | _ => None
            end
        | "" => None
        end
      else if (N_of_ascii c <? 32)%N then None
      else literal c rest
  end.

(** The rest of [s] after the characters of [word], when [s] starts with
    them. *)
Fixpoint expect (word s : string) : option string :=
  match word, s with
  | "", _ => Some s
  | String c word', String c' s' =>
      if Ascii.eqb c c' then expect word' s' else None
  | String _ _, "" => None
  end.

(** The recursive descent over values, the elements of an array and the
    members of an object.  [fuel] bounds the number of nested calls. *)
Fixpoint parse_value (fuel : nat) (s : string) : option (JsValue * string) :=
  match fuel with
  | O => None
  | S fuel' =>
      match skip_ws s with
      | "" => None
      | String c rest =>
          if Ascii.eqb c "n" then
            option_map (fun r => (JNull, r)) (expect "ull" rest)
          else if Ascii.eqb c "t" then
            option_map (fun r => (JBool true, r)) (expect "rue" rest)
          else if Ascii.eqb c "f" then
            option_map (fun r => (JBool false, r)) (expect "alse" rest)
          else if Ascii.eqb c dquote then
            option_map (fun '(body, r) => (JStr body, r)) (parse_string_body rest)
          else if Ascii.eqb c "[" then
            match skip_ws rest with
            | String "]"%char r => Some (JArr [], r)
            | _ => option_map (fun '(vs, r) => (JArr vs, r))
                     (parse_elements fuel' rest)
            end
          else if Ascii.eqb c "{" then
            match skip_ws rest with
            | String "}"%char r => Some (JObj [], r)
            | _ => option_map (fun '(kvs, r) => (JObj kvs, r))
                     (parse_members fuel' rest)
            end
          else
            option_map (fun '(n, r) => (JNum n, r)) (parse_number (String c rest))
      end
  end

with parse_elements (fuel : nat) (s : string)
    : option (list JsValue * string) :=
  match fuel with
  | O => None
  | S fuel' =>
      match parse_value fuel' s with
      | None => None
      | Some (v, s1) =>
          match skip_ws s1 with
          | String "]"%char r => Some ([v], r)
          | String ","%char r =>
              option_map (fun '(vs, r') => (v :: vs, r'))
                (parse_elements fuel' r)
          | _ => None
          end
      end
  end

with parse_members (fuel : nat) (s : string)
    : option (list (string * JsValue) * string) :=
  match fuel with
  | O => None
  | S fuel' =>
      match skip_ws s with
      | String c rest =>
          if Ascii.eqb c dquote then
            match parse_string_body rest with
            | None => None
            | Some (k, s1) =>
                match skip_ws s1 with
                | String ":"%char s2 =>
                    match parse_value fuel' s2 with
                    | None => None
                    | Some (v, s3) =>
                        match skip_ws s3 with
                        | String "}"%char r => Some ([(k, v)], r)
                        | String ","%char r =>
                            option_map (fun '(kvs, r') => ((k, v) :: kvs, r'))
                              (parse_members fuel' r)
                        | _ => None
                        end
                    end
                | _ => None
                end
            end
          else None
      | "" => None
      end
  end.

(** [JSON.parse]: one value, with nothing but white space after it;
    [None] stands for the [SyntaxError] that [JSON.parse] throws.  Every
    nested call consumes a character at least every other time, so twice
    the length of the text is fuel enough. *)
Definition JSON_parse (text : string) : option JsValue :=
  match parse_value (2 * String.length text + 2) text with
  | Some (v, rest) =>
      match skip_ws rest with
      | "" => Some v
      | String _ _ => None
      end
  | None => None
  end.

(* ================================================================= *)
(** ** The cart as a JSON value *)

(** What [JSON.stringify] makes of a number: [null] when it is [NaN]
    or an infinity. *)
Definition value_of_number (x : JsNumber) : JsValue :=
  match x with
  | Finite n => JNum n
  | NaN | Infinity _ => JNull
  end.

(** The object that [JSON.stringify] sees for a cart line: the five
    properties in the order in which [addToCart] creates them. *)
Definition value_of_line (item : CartLine) : JsValue :=
  JObj [ ("id", JNum (Number_of_Z (id item)));
         ("title", JStr (title item));
         ("price", value_of_number (price item));
         ("image", JStr (image item));
         ("quantity", JNum (Number_of_Z (quantity item))) ].

Definition value_of_cart (c : Cart) : JsValue :=
  JArr (map value_of_line c).

(** The cart line that a parsed value is, when it is an object of that
    shape. *)
Definition line_of_value (v : JsValue) : option CartLine :=
  match v with
  | JObj [ ("id", JNum i); ("title", JStr t); ("price", JNum p);
           ("image", JStr img); ("quantity", JNum q) ] =>
      match Number_to_Z i, Number_to_Z q with
      | Some i', Some q' => Some (mkCartLine i' t (Finite p) img q')
      | _, _ => None
      end
  | _ => None
  end.

Fixpoint lines_of_values (vs : list JsValue) : option Cart :=
  match vs with
  | [] => Some []
  | v :: vs' =>
      match line_of_value v, lines_of_values vs' with
      | Some item, Some c => Some (item :: c)
      | _, _ => None
      end
  end.

Definition cart_of_value (v : JsValue) : option Cart :=
  match v with
  | JArr vs => lines_of_values vs
  | _ => None
  end.

(* ================================================================= *)
(** ** The state and its monad *)

Inductive Exn : Set :=
| SyntaxError.

(** What the cart code reads and writes: the variable [cart], the
    entries of [localStorage], the messages shown by [showNotification]
    (oldest first) and whether the cart panel is open. *)
Record World : Set := mkWorld {
  cart : Cart;
  localStorage : list (string * string);
  notifications : list string;
  cartOpen : bool
}.

(** How a call ends: normally with a value, by an exception, or with
    [cart] assigned a parsed value [v] that is not a sequence of cart
    lines, from where the execution is not followed.  In that case the
    variable [cart] holds [v], which no [World] can hold: what is handed
    back is the rest of the world, the storage, the messages shown and
    the panel, as they are when [cart] is assigned. *)
Inductive Completion (A : Type) : Type :=
| Normal (a : A) (w : World)
| Throw (e : Exn) (w : World)
| Untyped (v : JsValue) (entries : list (string * string))
    (shown : list string) (open : bool).

Arguments Normal {A} a w.
Arguments Throw {A} e w.
Arguments Untyped {A} v entries shown open.

Definition M (A : Type) : Type := World -> Completion A.

Definition ret {A} (a : A) : M A := fun w => Normal a w.

Definition bind {A B} (m : M A) (k : A -> M B) : M B :=
  fun w =>
    match m w with
    | Normal a w' => k a w'
    | Throw e w' => Throw e w'
    | Untyped v entries shown open => Untyped v entries shown open
    end.

Declare Scope js_scope.
Delimit Scope js_scope with js.
Notation "x <- m ;; k" := (bind m (fun x => k))
  (at level 61, m at next level, right associativity) : js_scope.
Notation "m ;; k" := (bind m (fun _ => k))
  (at level 61, right associativity) : js_scope.
Local Open Scope js_scope.

Definition throw {A} (e : Exn) : M A := fun w => Throw e w.

Definition get_cart : M Cart := fun w => Normal (cart w) w.

Definition set_cart (c : Cart) : M unit :=
  fun w => Normal tt (mkWorld c (localStorage w) (notifications w) (cartOpen w)).

(** [localStorage.getItem] and [localStorage.setItem]. *)
Fixpoint lookup (key : string) (entries : list (string * string))
    : option string :=
  match entries with
  | [] => None
  | (k, v) :: rest => if String.eqb k key then Some v else lookup key rest
  end.

Fixpoint store (key value : string) (entries : list (string * string))
    : list (string * string) :=
  match entries with
  | [] => [(key, value)]
  | (k, v) :: rest =>
      if String.eqb k key then (key, value) :: rest
      else (k, v) :: store key value rest
  end.

Definition getItem (key : string) : M (option string) :=
  fun w => Normal (lookup key (localStorage w)) w.

Definition setItem (key value : string) : M unit :=
  fun w => Normal tt (mkWorld (cart w) (store key value (localStorage w))
                        (notifications w) (cartOpen w)).

(* ================================================================= *)
(** ** The functions of [script.js] *)

Definition showNotification (message : string) : M unit :=
  fun w => Normal tt (mkWorld (cart w) (localStorage w)
                        (notifications w ++ [message])%list (cartOpen w)).

Definition openCart : M unit :=
  fun w => Normal tt (mkWorld (cart w) (localStorage w) (notifications w) true).

Definition calculateTotal : M Amount :=
  c <- get_cart ;;
  ret (fold_left
         (fun total item =>
            Amount_add total
              (Amount_times (JsNumber_to_Amount (price item)) (quantity item)))
         c (Exact 0)).

Definition getTotalItems : M Z :=
  c <- get_cart ;;
  ret (fold_left (fun total item => total + quantity item) c 0).

(** The two rendering functions read the cart through [calculateTotal]
    and [getTotalItems] and write to the page only. *)
Definition updateCartDisplay : M unit :=
  _ <- calculateTotal ;; ret tt.

Definition updateCartBadge : M unit :=
  _ <- getTotalItems ;; ret tt.

Definition saveCart : M unit :=
  c <- get_cart ;;
  setItem "vyndetta_cart" (JSON_stringify (value_of_cart c)).

Definition loadCart : M unit :=
  savedCart <- getItem "vyndetta_cart" ;;
  match savedCart with
  | None | Some "" => ret tt
  | Some text =>
      match JSON_parse text with
      | None => throw SyntaxError
      | Some v =>
          match cart_of_value v with
          | Some c => set_cart c
          | None =>
              fun w =>
                Untyped v (localStorage w) (notifications w) (cartOpen w)
          end
      end
  end ;;
  updateCartDisplay ;;
  updateCartBadge.

(** [existingItem.quantity += n] on the object that [cart.find] returned:
    the object is shared with the array, so the first line with that id
    changes in place. *)
Fixpoint add_quantity (productId change : Z) (c : Cart) : Cart :=
  match c with
  | [] => []
  | item :: rest =>
      if id item =? productId
      then mkCartLine (id item) (title item) (price item) (image item)
             (quantity item + change) :: rest
      else item :: add_quantity productId change rest
  end.

Definition addToCart (product : Product) : M unit :=
  c <- get_cart ;;
  let existingItem := find (fun item => id item =? product_id product) c in
  match existingItem with
  | Some _ =>
      set_cart (add_quantity (product_id product) 1 c) ;;
      showNotification "Quantity updated in cart!"
  | None =>
      set_cart (c ++ [mkCartLine (product_id product) (product_title product)
                        (product_price product) (product_image product) 1])%list ;;
      showNotification "Added to cart!"
  end ;;
  saveCart ;;
  updateCartDisplay ;;
  updateCartBadge ;;
  openCart.

Definition removeFromCart (productId : Z) : M unit :=
  c <- get_cart ;;
  set_cart (filter (fun item => negb (id item =? productId)) c) ;;
  saveCart ;;
  updateCartDisplay ;;
  updateCartBadge ;;
  showNotification "Item removed from cart".

Definition updateQuantity (productId change : Z) : M unit :=
  c <- get_cart ;;
  let item := find (fun item => id item =? productId) c in
  match item with
  | Some found =>
      set_cart (add_quantity productId change c) ;;
      if quantity found + change <=? 0 then
        removeFromCart productId
      else
        saveCart ;;
        updateCartDisplay ;;
        updateCartBadge
  | None => ret tt
  end.

(* ================================================================= *)
(** ** Texts and digits, for the round trip *)

(** The digits [u] followed by the digit [last]. *)
Fixpoint uint_snoc (u : uint) (last : nzdigit) : uint :=
  match u with
  | Nil =>
      match last with
      | N1 => D1 Nil | N2 => D2 Nil | N3 => D3 Nil | N4 => D4 Nil
      | N5 => D5 Nil | N6 => D6 Nil | N7 => D7 Nil | N8 => D8 Nil
      | N9 => D9 Nil
      end
  | D0 u' => D0 (uint_snoc u' last)
  | D1 u' => D1 (uint_snoc u' last)
  | D2 u' => D2 (uint_snoc u' last)
  | D3 u' => D3 (uint_snoc u' last)
  | D4 u' => D4 (uint_snoc u' last)
  | D5 u' => D5 (uint_snoc u' last)
  | D6 u' => D6 (uint_snoc u' last)
  | D7 u' => D7 (uint_snoc u' last)
  | D8 u' => D8 (uint_snoc u' last)
  | D9 u' => D9 (uint_snoc u' last)
  end.

Definition is_digit (c : ascii) : bool :=
  match digit_of_char c with
  | Some _ => true
  | None => false
  end.

(** The characters that [JSON.stringify] puts after a value: the comma
    and the closing bracket and brace. *)
Definition delimiter (c : ascii) : bool :=
  (Ascii.eqb c "," || Ascii.eqb c "]" || Ascii.eqb c "}")%bool.

(** The texts that [JSON.stringify] writes for the elements of an array
    and for a cart line, the latter with the text [rest] after it. *)
Fixpoint items_text (vs : list JsValue) : string :=
  match vs with
  | [] => ""
  | [x] => JSON_stringify x
  | x :: vs' => JSON_stringify x ++ "," ++ items_text vs'
  end.

Definition line_text_onto (item : CartLine) (rest : string) : string :=
  let quantity_on :=
    quote_string "quantity" ++ String ":"
      (Number_to_string (Number_of_Z (quantity item)) ++ String "}" rest) in
  let image_on :=
    quote_string "image" ++ String ":"
      (String dquote
         (escape_string (image item) ++
          String dquote (String "," quantity_on))) in
  let price_on :=
    quote_string "price" ++ String ":"
      (JSON_stringify (value_of_number (price item)) ++
       String "," image_on) in
  let title_on :=
    quote_string "title" ++ String ":"
      (String dquote
         (escape_string (title item) ++
          String dquote (String "," price_on))) in
  String "{"
    (quote_string "id" ++ String ":"
       (Number_to_string (Number_of_Z (id item)) ++ String "," title_on)).

Fixpoint lines_text_onto (c : Cart) (rest : string) : string :=
  match c with
  | [] => rest
  | [item] => line_text_onto item rest
  | item :: c' => line_text_onto item (String "," (lines_text_onto c' rest))
  end.

(* ================================================================= *)
(** ** The words of the specification *)

Local Open Scope list_scope.

(** "Sum over all CartLines of [price * quantity]". *)
Fixpoint sum_of_line_totals (c : Cart) : Amount :=
  match c with
  | [] => Exact 0
  | item :: rest =>
      Amount_add
        (Amount_times (JsNumber_to_Amount (price item)) (quantity item))
        (sum_of_line_totals rest)
  end.

(** A number as it comes back from a JSON text: a negative zero is
    written [0] and read as zero. *)
Definition Number_read_back (n : Number) : Number :=
  if negative n && Decimal_is_zero (magnitude n)
  then mkNumber false (magnitude n)
  else n.

(** A line as it comes back from a JSON text when its price is finite. *)
Definition line_read_back (item : CartLine) : CartLine :=
  mkCartLine (id item) (title item)
    match price item with
    | Finite n => Finite (Number_read_back n)
    | other => other
    end
    (image item) (quantity item).

(** The price is a finite number. *)
Definition finite_price (item : CartLine) : Prop :=
  exists n, price item = Finite n.

(** The price is a finite number other than the negative zero. *)
Definition plain_price (item : CartLine) : Prop :=
  exists n, price item = Finite n /\ Number_read_back n = n.

(** "Sum over all CartLines of [quantity]". *)
Fixpoint sum_of_quantities (c : Cart) : Z :=
  match c with
  | [] => 0
  | item :: rest => quantity item + sum_of_quantities rest
  end.

(** The cart invariant: ids are unique and every quantity is at least 1. *)
Definition cart_invariant (c : Cart) : Prop :=
  NoDup (map id c) /\ Forall (fun item => 1 <= quantity item) c.

(** The line [item] with [change] added to its quantity and nothing else
    touched. *)
Definition with_quantity_added (change : Z) (item : CartLine) : CartLine :=
  mkCartLine (id item) (title item) (price item) (image item)
    (quantity item + change).

(** What [saveCart] leaves in [localStorage] for the cart [c]. *)
Definition persisted (c : Cart) (entries : list (string * string))
    : list (string * string) :=
  store "vyndetta_cart" (JSON_stringify (value_of_cart c)) entries.

(** A sequence of [addToCart] calls, one per product. *)
Fixpoint addAll (products : list Product) : M unit :=
  match products with
  | [] => ret tt
  | p :: rest => addToCart p ;; addAll rest
  end.

(** The worlds that the three mutating operations reach from an empty
    cart. *)
Inductive reachable : World -> Prop :=
| reach_empty entries shown open :
    reachable (mkWorld [] entries shown open)
| reach_add w w' product :
    reachable w -> addToCart product w = Normal tt w' -> reachable w'
| reach_remove w w' productId :
    reachable w -> removeFromCart productId w = Normal tt w' -> reachable w'
| reach_update w w' productId change :
    reachable w -> updateQuantity productId change w = Normal tt w' ->
    reachable w'.

(** Sample data: the product of the specification's scenarios, a cart
    that holds it once, and worlds around them. *)
Definition sample_product : Product :=
  mkProduct 1 "A" (JsNumber_of_Decimal (mkDecimal 10 FZero)) "a.png".

Definition other_product : Product :=
  mkProduct 2 "B" (JsNumber_of_Decimal (mkDecimal 7 (FDigits Nil N5)))
    "b.png".

Definition sample_line : CartLine :=
  mkCartLine 1 "A" (JsNumber_of_Decimal (mkDecimal 10 FZero)) "a.png" 1.

Definition empty_world : World := mkWorld [] [] [] false.

Definition sample_world : World := mkWorld [sample_line] [] [] false.

(** A world whose stored value is not a JSON text, and one whose stored
    value is what [saveCart] writes for the sample cart. *)
Definition broken_world : World :=
  mkWorld [] [("vyndetta_cart", "undefined")] [] false.

Definition saved_world : World :=
  mkWorld [] (persisted [sample_line] []) [] false.

(** A world whose storage holds the cart that is in memory. *)
Definition synced_world : World :=
  mkWorld [sample_line] (persisted [sample_line] []) [] false.

(** A line whose price is [NaN], as [parseFloat] gives it for a price
    text that does not start with a number, and a world that holds it. *)
Definition nan_line : CartLine := mkCartLine 1 "A" NaN "a.png" 1.

Definition nan_world : World := mkWorld [nan_line] [] [] false.

(** A line whose price is the negative zero, and a world that holds it. *)
Definition minus_zero_line : CartLine :=
  mkCartLine 1 "A" (Finite (mkNumber true (mkDecimal 0 FZero))) "a.png" 1.

Definition minus_zero_world : World :=
  mkWorld [minus_zero_line] [] [] false.

(* ================================================================= *)
(** ** More of [script.js] *)

(** The line that [addToCart] pushes for a product. *)
Definition line_of_product (product : Product) : CartLine :=
  mkCartLine (product_id product) (product_title product)
    (product_price product) (product_image product) 1.

(** A page load: [loadCart] in a world that has nothing but the storage
    of [w]. *)
Definition reload (w : World) : Completion unit :=
  loadCart (mkWorld [] (localStorage w) [] false).

(** What the click handler of [setupAddToCartButtons] reads off a product
    card: the trimmed text of the title element, the number that
    [parseFloat] makes of the text of the price element ([NaN] when the
    text does not start with one), and the [src] of the image, each
    absent when the element is. *)
Record Card : Set := mkCard {
  card_title : option string;
  card_price : option JsNumber;
  card_image : option string
}.

(** The click handler of the [index]-th cart icon, run when [Date.now()]
    is [now].  A missing title reads 'Product', a missing price '$9.00',
    a missing image the empty string. *)
Definition clickAddToCart (now index : Z) (card : Card) : M unit :=
  let title :=
    match card_title card with Some t => t | None => "Product" end in
  let price :=
    match card_price card with
    | Some p => p
    | None => JsNumber_of_Decimal (mkDecimal 9 FZero)
    end in
  let image :=
    match card_image card with Some src => src | None => "" end in
  addToCart (mkProduct (now + index) title price image).

(** A sequence of clicks, each with its time, icon index and card. *)
Fixpoint clickAll (clicks : list (Z * Z * Card)) : M unit :=
  match clicks with
  | [] => ret tt
  | (now, index, card) :: rest =>
      clickAddToCart now index card ;; clickAll rest
  end.

Definition product_of_click (click : Z * Z * Card) : Product :=
  let '(now, index, card) := click in
  mkProduct (now + index)
    match card_title card with Some t => t | None => "Product" end
    match card_price card with
    | Some p => p
    | None => JsNumber_of_Decimal (mkDecimal 9 FZero)
    end
    match card_image card with Some src => src | None => "" end.

(** The sum of the prices of a list of products. *)
Fixpoint sum_of_prices (products : list Product) : Amount :=
  match products with
  | [] => Exact 0
  | p :: rest =>
      Amount_add (JsNumber_to_Amount (product_price p)) (sum_of_prices rest)
  end.

(** The part of the page that [updateCartBadge] touches. *)
Module Dom.

Record Page : Set := mkPage {
  badge : option string;   (* the text of the [.cart-badge] element *)
  cartLink : bool          (* whether the link to the cart exists *)
}.

Definition updateCartBadge (w : World) (p : Page) : Page :=
  match getTotalItems w with
  | Normal totalItems _ =>
      if 0 <? totalItems then
        let found :=
          match badge p with
          | Some text => Some text
          | None => if cartLink p then Some ""%string else None
          end in
        match found with
        | Some _ =>
            mkPage (Some (Number_to_string (Number_of_Z totalItems)))
              (cartLink p)
        | None => p
        end
      else mkPage None (cartLink p)
  | Throw _ _ | Untyped _ _ _ _ => p
  end.

End Dom.

(** The slideshow of a product card: [initializeSlideshow] and the
    functions and handlers it sets up. *)
Module Slideshow.

(** The two classes of a slide that the code adds and removes. *)
Record Slide : Set := mkSlide { active : bool; prev : bool }.

(** The slides and the dots of the card (a dot by its [active] class),
    the variables [currentSlide] and [autoSlideInterval], and the
    intervals of this card that are running. *)
Record State : Set := mkState {
  slides : list Slide;
  dots : list bool;
  currentSlide : nat;
  autoSlideInterval : option nat;
  intervals : list nat
}.

(** A call ends normally or by the [TypeError] of reading [classList]
    off a slide or dot that is not there. *)
Inductive Outcome : Set :=
| Done (s : State)
| TypeError (s : State).

(** [elements[i].classList...]: the change [f] to the element at [i],
    nothing when there is no such element. *)
Fixpoint update_at {A : Type} (i : nat) (f : A -> A) (l : list A)
    : option (list A) :=
  match l, i with
  | [], _ => None
  | x :: rest, O => Some (f x :: rest)
  | x :: rest, S i' => option_map (cons x) (update_at i' f rest)
  end.

Definition goToSlide (index : nat) (s : State) : Outcome :=
  let cleared := map (fun _ => mkSlide false false) (slides s) in
  let plain := map (fun _ => false) (dots s) in
  let s1 := mkState cleared plain (currentSlide s) (autoSlideInterval s)
              (intervals s) in
  match
    (if currentSlide s =? index then Some cleared
     else update_at (currentSlide s)
            (fun slide => mkSlide (active slide) true) cleared)%nat
  with
  | None => TypeError s1
  | Some marked =>
      let s2 := mkState marked plain index (autoSlideInterval s)
                  (intervals s) in
      match update_at index (fun slide => mkSlide true (prev slide)) marked with
      | None => TypeError s2
      | Some shown =>
          let s3 := mkState shown plain index (autoSlideInterval s)
                      (intervals s) in
          match update_at index (fun _ => true) plain with
          | None => TypeError s3
          | Some lit =>
              Done (mkState shown lit index (autoSlideInterval s)
                      (intervals s))
          end
      end
  end.

(** [initializeSlideshow] defines [nextSlide] only on a card that has
    slides, so the division is never by 0. *)
Definition nextSlide (s : State) : Outcome :=
  goToSlide ((currentSlide s + 1) mod List.length (slides s))%nat s.

(** [clearInterval(autoSlideInterval)]. *)
Definition clearInterval (s : State) : State :=
  match autoSlideInterval s with
  | Some timer =>
      mkState (slides s) (dots s) (currentSlide s) (autoSlideInterval s)
        (filter (fun t => negb (t =? timer)%nat) (intervals s))
  | None => s
  end.

(** The [mouseenter] handler; [timer] is the id that [setInterval]
    returns. *)
Definition mouseenter (timer : nat) (s : State) : Outcome :=
  if (1 <? List.length (slides s))%nat then
    Done (mkState (slides s) (dots s) (currentSlide s) (Some timer)
            (timer :: intervals s))
  else Done s.

Definition mouseleave (s : State) : Outcome :=
  goToSlide 0 (clearInterval s).

(** The [click] handler of the dot at [index]. *)
Definition dotClick (index : nat) (s : State) : Outcome :=
  goToSlide index (clearInterval s).

(** The interval [timer] fires: [nextSlide] runs if it is still set. *)
Definition tick (timer : nat) (s : State) : Outcome :=
  if existsb (Nat.eqb timer) (intervals s) then nextSlide s else Done s.

(** [initializeSlideshow] on a card with these slides and dots: nothing
    is set up when there is no slide or no dot. *)
Definition initializeSlideshow (cardSlides : list Slide) (cardDots : list bool)
    : option Outcome :=
  if ((List.length cardSlides =? 0) || (List.length cardDots =? 0))%nat%bool
  then None
  else Some (goToSlide 0 (mkState cardSlides cardDots 0 None [])).

(** What the user does to a card, and the timers that fire. *)
Inductive Event : Set :=
| MouseEnter (timer : nat)
| MouseLeave
| DotClick (index : nat)
| Tick (timer : nat).

Definition handle (e : Event) (s : State) : Outcome :=
  match e with
  | MouseEnter timer => mouseenter timer s
  | MouseLeave => mouseleave s
  | DotClick index => dotClick index s
  | Tick timer => tick timer s
  end.

(** The handlers run one after the other on a list of events; an
    exception leaves the state as it is for the events that follow. *)
Fixpoint run (events : list Event) (s : State) : State :=
  match events with
  | [] => s
  | e :: rest =>
      match handle e s with
      | Done s' | TypeError s' => run rest s'
      end
  end.

(** [nextSlide] run [k] times; an exception ends the run. *)
Fixpoint advance (k : nat) (s : State) : Outcome :=
  match k with
  | O => Done s
  | S k' =>
      match nextSlide s with
      | Done s' => advance k' s'
      | TypeError s' => TypeError s'
      end
  end.

(** The slideshow as the page is meant to have it: as many dots as
    slides, at least one, and [currentSlide] one of them. *)
Definition well_formed (s : State) : Prop :=
  (0 < List.length (slides s))%nat /\
  List.length (dots s) = List.length (slides s) /\
  (currentSlide s < List.length (slides s))%nat.

(** Exactly the slide at [index] is active. *)
Definition only_active (index : nat) (l : list Slide) : Prop :=
  forall i slide, nth_error l i = Some slide ->
                  (active slide = true <-> i = index).

End Slideshow.

(** A slideshow of three slides and three dots as the page has it before
    [initializeSlideshow] runs, and a card that has a dot too many. *)
Definition sample_slideshow : Slideshow.State :=
  Slideshow.mkState
    [Slideshow.mkSlide true false; Slideshow.mkSlide false false;
     Slideshow.mkSlide false false]
    [true; false; false] 0 None [].

Definition lopsided_slideshow : Slideshow.State :=
  Slideshow.mkState
    [Slideshow.mkSlide true false; Slideshow.mkSlide false false]
    [true; false; false] 0 None [].

(* ================================================================= *)
(** ** How the operations run *)

Arguments JSON_stringify : simpl never.
Arguments JSON_parse : simpl never.
Arguments store : simpl never.

Lemma saveCart_run w :
  saveCart w =
  Normal tt (mkWorld (cart w) (persisted (cart w) (localStorage w))
               (notifications w) (cartOpen w)).
Proof. reflexivity. Qed.

Lemma addToCart_run product w :
  addToCart product w =
  match find (fun item => id item =? product_id product) (cart w) with
  | Some _ =>
      let c := add_quantity (product_id product) 1 (cart w) in
      Normal tt (mkWorld c (persisted c (localStorage w))
                   (notifications w ++ ["Quantity updated in cart!"]) true)
  | None =>
      let c := (cart w ++
                [mkCartLine (product_id product) (product_title product)
                   (product_price product) (product_image product) 1])%list in
      Normal tt (mkWorld c (persisted c (localStorage w))
                   (notifications w ++ ["Added to cart!"]) true)
  end.
Proof.
  unfold addToCart, bind, get_cart.
  destruct (find _ (cart w)); reflexivity.
Qed.

Lemma removeFromCart_run productId w :
  removeFromCart productId w =
  let c := filter (fun item => negb (id item =? productId)) (cart w) in
  Normal tt (mkWorld c (persisted c (localStorage w))
               (notifications w ++ ["Item removed from cart"]) (cartOpen w)).
Proof. reflexivity. Qed.

Lemma updateQuantity_run productId change w :
  updateQuantity productId change w =
  match find (fun item => id item =? productId) (cart w) with
  | Some found =>
      let c := add_quantity productId change (cart w) in
      if quantity found + change <=? 0 then
        removeFromCart productId
          (mkWorld c (localStorage w) (notifications w) (cartOpen w))
      else
        Normal tt (mkWorld c (persisted c (localStorage w))
                     (notifications w) (cartOpen w))
  | None => Normal tt w
  end.
Proof.
  unfold updateQuantity, bind, get_cart.
  destruct (find _ (cart w)) as [found|]; [|reflexivity].
  cbn. destruct (quantity found + change <=? 0); reflexivity.
Qed.

(* ================================================================= *)
(** ** Lines and their ids *)

Section Lines.

Variable productId : Z.

Let matches (item : CartLine) : bool := id item =? productId.

Lemma find_none_iff (c : Cart) :
  find matches c = None <->
  (forall item, In item c -> id item <> productId).
Proof.
  split.
  - intros H item Hin Heq.
    apply (find_none _ _ H) in Hin. unfold matches in Hin.
    apply Z.eqb_neq in Hin. contradiction.
  - intros H. induction c as [|x c IH]; [reflexivity|].
    simpl. unfold matches at 1.
    destruct (Z.eqb_spec (id x) productId) as [E|_].
    + exfalso. apply (H x); [left; reflexivity | exact E].
    + apply IH. intros item Hin. apply H. right. exact Hin.
Qed.

(** [cart.find] returns the first line with the id: the cart splits
    around it, and the in-place update touches that line only. *)
Lemma find_some_split (c : Cart) (found : CartLine) :
  find matches c = Some found ->
  exists before after,
    c = (before ++ found :: after)%list /\
    (forall item, In item before -> id item <> productId) /\
    id found = productId /\
    forall change,
      add_quantity productId change c =
      (before ++ with_quantity_added change found :: after)%list.
Proof.
  induction c as [|x c IH]; simpl; [discriminate|].
  unfold matches at 1.
  destruct (Z.eqb_spec (id x) productId) as [E|NE].
  - intros [= <-]. exists [], c.
    split; [reflexivity|]. split; [intros item []|].
    split; [exact E|]. intros change. simpl.
    destruct (Z.eqb_spec (id x) productId); [reflexivity|contradiction].
  - intros H. destruct (IH H) as (before & after & -> & Hb & Hid & Hadd).
    exists (x :: before), after.
    split; [reflexivity|]. split; [intros item [<-|Hin]; auto|].
    split; [exact Hid|]. intros change. simpl.
    destruct (Z.eqb_spec (id x) productId); [contradiction|].
    rewrite Hadd. reflexivity.
Qed.

Lemma find_some_of_In (c : Cart) (item : CartLine) :
  In item c -> id item = productId ->
  exists found, find matches c = Some found.
Proof.
  intros Hin Hid. destruct (find matches c) as [found|] eqn:E.
  - exists found. reflexivity.
  - exfalso. apply (proj1 (find_none_iff c) E item Hin Hid).
Qed.

Lemma add_quantity_ids (change : Z) (c : Cart) :
  map id (add_quantity productId change c) = map id c.
Proof.
  induction c as [|x c IH]; simpl; [reflexivity|].
  destruct (id x =? productId); simpl; [reflexivity|].
  rewrite IH. reflexivity.
Qed.

Lemma add_quantity_length (change : Z) (c : Cart) :
  List.length (add_quantity productId change c) = List.length c.
Proof.
  rewrite <- (length_map id), add_quantity_ids. apply length_map.
Qed.

(** Removing after the in-place update is removing from the cart as it
    was: the updated line is among those that go. *)
Lemma filter_add_quantity (change : Z) (c : Cart) :
  filter (fun item => negb (id item =? productId))
    (add_quantity productId change c) =
  filter (fun item => negb (id item =? productId)) c.
Proof.
  induction c as [|x c IH]; simpl; [reflexivity|].
  destruct (id x =? productId) eqn:E; simpl.
  - rewrite E. reflexivity.
  - rewrite E. simpl. rewrite IH. reflexivity.
Qed.

Lemma filter_absent (c : Cart) :
  (forall item, In item c -> id item <> productId) ->
  filter (fun item => negb (id item =? productId)) c = c.
Proof.
  induction c as [|x c IH]; simpl; intros H; [reflexivity|].
  destruct (Z.eqb_spec (id x) productId) as [E|_].
  - exfalso. apply (H x); auto.
  - simpl. rewrite IH; auto.
Qed.

Lemma filter_removes (c : Cart) :
  forall item,
    In item (filter (fun item => negb (id item =? productId)) c) <->
    In item c /\ id item <> productId.
Proof.
  intros item. rewrite filter_In.
  destruct (Z.eqb_spec (id item) productId); simpl; intuition congruence.
Qed.

End Lines.

Lemma sum_of_quantities_app (c1 c2 : Cart) :
  sum_of_quantities (c1 ++ c2) = sum_of_quantities c1 + sum_of_quantities c2.
Proof. induction c1 as [|x c1 IH]; simpl; lia. Qed.

Lemma fold_left_quantities (c : Cart) (start : Z) :
  fold_left (fun total item => total + quantity item) c start =
  start + sum_of_quantities c.
Proof.
  revert start. induction c as [|x c IH]; intros start; simpl.
  - lia.
  - rewrite IH. lia.
Qed.

(** Amounts add like numbers: the order and the grouping of the terms
    of a sum do not matter. *)
Lemma Amount_eq_refl (a : Amount) : Amount_eq a a.
Proof. destruct a; cbn; reflexivity. Qed.

Lemma Amount_eq_sym (a b : Amount) : Amount_eq a b -> Amount_eq b a.
Proof.
  destruct a, b; cbn; intros H; try contradiction; try exact I;
    symmetry; exact H.
Qed.

Lemma Amount_eq_trans (a b c : Amount) :
  Amount_eq a b -> Amount_eq b c -> Amount_eq a c.
Proof.
  destruct a, b, c; cbn; intros H1 H2; try contradiction;
    try exact I; etransitivity; eassumption.
Qed.

#[local] Instance Amount_eq_equivalence : Equivalence Amount_eq :=
  Build_Equivalence Amount_eq Amount_eq_refl Amount_eq_sym Amount_eq_trans.

#[local] Instance Amount_add_proper :
  Proper (Amount_eq ==> Amount_eq ==> Amount_eq) Amount_add.
Proof.
  intros a a' Ha b b' Hb.
  destruct a, a'; cbn in Ha; try contradiction;
    destruct b, b'; cbn in Hb; try contradiction; subst; cbn;
    try exact I; try reflexivity.
  rewrite Ha, Hb. reflexivity.
Qed.

Lemma Amount_add_assoc (a b c : Amount) :
  Amount_eq (Amount_add (Amount_add a b) c) (Amount_add a (Amount_add b c)).
Proof.
  destruct a as [x| |[|]], b as [y| |[|]], c as [z| |[|]]; cbn;
    try exact I; try reflexivity.
  ring.
Qed.

Lemma Amount_add_comm (a b : Amount) :
  Amount_eq (Amount_add a b) (Amount_add b a).
Proof.
  destruct a as [x| |[|]], b as [y| |[|]]; cbn;
    try exact I; try reflexivity.
  ring.
Qed.

Lemma Amount_add_0_l (a : Amount) : Amount_eq (Amount_add (Exact 0) a) a.
Proof. destruct a; cbn; try exact I; try reflexivity. ring. Qed.

Lemma Amount_add_0_r (a : Amount) : Amount_eq (Amount_add a (Exact 0)) a.
Proof. destruct a; cbn; try exact I; try reflexivity. ring. Qed.

Lemma fold_left_line_totals (c : Cart) (start : Amount) :
  Amount_eq
    (fold_left
       (fun total item =>
          Amount_add total
            (Amount_times (JsNumber_to_Amount (price item)) (quantity item)))
       c start)
    (Amount_add start (sum_of_line_totals c)).
Proof.
  revert start.
  induction c as [|x c IH]; intros start; cbn [fold_left sum_of_line_totals].
  - symmetry. apply Amount_add_0_r.
  - rewrite IH. apply Amount_add_assoc.
Qed.

Lemma getTotalItems_run w :
  getTotalItems w = Normal (sum_of_quantities (cart w)) w.
Proof.
  unfold getTotalItems, bind, get_cart, ret.
  rewrite fold_left_quantities. reflexivity.
Qed.

Lemma split_find productId (before after : Cart) (found : CartLine) :
  (forall item, In item before -> id item <> productId) ->
  id found = productId ->
  find (fun item => id item =? productId) (before ++ found :: after) =
  Some found.
Proof.
  intros Hb Hid. induction before as [|x before IH]; simpl.
  - rewrite Hid, Z.eqb_refl. reflexivity.
  - destruct (Z.eqb_spec (id x) productId) as [E|_].
    + exfalso. apply (Hb x); [left; reflexivity | exact E].
    + apply IH. intros item Hin. apply Hb. right. exact Hin.
Qed.

Lemma split_add_quantity productId change (before after : Cart)
    (found : CartLine) :
  (forall item, In item before -> id item <> productId) ->
  id found = productId ->
  add_quantity productId change (before ++ found :: after) =
  before ++ with_quantity_added change found :: after.
Proof.
  intros Hb Hid. induction before as [|x before IH]; simpl.
  - destruct (Z.eqb_spec (id found) productId);
      [reflexivity | contradiction].
  - destruct (Z.eqb_spec (id x) productId) as [E|_].
    + exfalso. apply (Hb x); [left; reflexivity | exact E].
    + f_equal. apply IH. intros item Hin. apply Hb. right. exact Hin.
Qed.

(* ================================================================= *)
(** ** Adding *)

(** C2.  [addToCart] always completes.  When a line with the product's id
    is in the cart, the first such line gets its quantity raised by
    exactly 1, nothing else in the cart changes, and the message
    'Quantity updated in cart!' is shown; when no line has the id, a new
    line with quantity 1 is appended at the end of the cart and the
    message 'Added to cart!' is shown. *)
Theorem addToCart_increments_or_appends (product : Product) (w : World) :
  exists w',
    addToCart product w = Normal tt w' /\
    (forall item,
        In item (cart w) -> id item = product_id product ->
        exists before found after,
          cart w = before ++ found :: after /\
          (forall x, In x before -> id x <> product_id product) /\
          id found = product_id product /\
          cart w' = before ++ with_quantity_added 1 found :: after /\
          notifications w' =
          notifications w ++ ["Quantity updated in cart!"]) /\
    ((forall item, In item (cart w) -> id item <> product_id product) ->
     cart w' =
     cart w ++ [mkCartLine (product_id product) (product_title product)
                  (product_price product) (product_image product) 1] /\
     notifications w' = notifications w ++ ["Added to cart!"]).
Proof.
  rewrite addToCart_run.
  destruct (find _ (cart w)) as [found|] eqn:Hfind.
  - eexists. split; [reflexivity|]. split.
    + intros _ _ _.
      destruct (find_some_split _ _ _ Hfind)
        as (before & after & Heq & Hb & Hid & Hadd).
      exists before, found, after. cbn. rewrite Hadd. auto.
    + intros Habsent. apply find_none_iff in Habsent. congruence.
  - eexists. split; [reflexivity|]. split.
    + intros item Hin Hid. exfalso.
      apply (proj1 (find_none_iff _ _) Hfind item Hin Hid).
    + intros _. cbn. auto.
Qed.

Lemma addToCart_increments_or_appends_witness :
  (exists w',
      addToCart sample_product sample_world = Normal tt w' /\
      exists before found after,
        cart sample_world = before ++ found :: after /\
        (forall x, In x before -> id x <> 1) /\
        id found = 1 /\
        cart w' = before ++ with_quantity_added 1 found :: after /\
        notifications w' = ["Quantity updated in cart!"]) /\
  (exists w',
      addToCart other_product sample_world = Normal tt w' /\
      cart w' =
      [sample_line;
       mkCartLine 2 "B"
         (JsNumber_of_Decimal (mkDecimal 7 (FDigits Nil N5))) "b.png" 1] /\
      notifications w' = ["Added to cart!"]).
Proof.
  split.
  - destruct (addToCart_increments_or_appends sample_product sample_world)
      as (w' & Hrun & Hpresent & _).
    exists w'. split; [exact Hrun|].
    apply (Hpresent sample_line); [left; reflexivity | reflexivity].
  - destruct (addToCart_increments_or_appends other_product sample_world)
      as (w' & Hrun & _ & Habsent).
    exists w'. split; [exact Hrun|].
    apply Habsent. intros item [<-|[]]. discriminate.
Defined.

(** C9.  When the cart holds a line with the product's id, [addToCart]
    changes the quantity of the first such line and nothing else: its
    id, title, price and image stay what they were, whatever the
    incoming product carries, and the lines before and after it are the
    same. *)
Theorem addToCart_existing_keeps_fields (product : Product) (w : World)
    (item : CartLine) :
  In item (cart w) -> id item = product_id product ->
  exists w' before found updated after,
    addToCart product w = Normal tt w' /\
    cart w = before ++ found :: after /\
    (forall x, In x before -> id x <> product_id product) /\
    id found = product_id product /\
    cart w' = before ++ updated :: after /\
    id updated = id found /\
    title updated = title found /\
    price updated = price found /\
    image updated = image found /\
    quantity updated = quantity found + 1.
Proof.
  intros Hin Hid.
  destruct (find_some_of_In _ _ _ Hin Hid) as [found Hfind].
  destruct (find_some_split _ _ _ Hfind)
    as (before & after & Heq & Hb & Hfid & Hadd).
  rewrite addToCart_run, Hfind.
  eexists. exists before, found, (with_quantity_added 1 found), after.
  split; [reflexivity|]. cbn. rewrite Hadd. repeat (split; auto).
Qed.

Lemma addToCart_existing_keeps_fields_witness :
  exists w' before found updated after,
    addToCart
      (mkProduct 1 "renamed" (JsNumber_of_Decimal (mkDecimal 99 FZero))
         "new.png")
      sample_world = Normal tt w' /\
    cart sample_world = before ++ found :: after /\
    (forall x, In x before -> id x <> 1) /\
    id found = 1 /\
    cart w' = before ++ updated :: after /\
    id updated = id found /\
    title updated = title found /\
    price updated = price found /\
    image updated = image found /\
    quantity updated = quantity found + 1.
Proof.
  apply (addToCart_existing_keeps_fields
           (mkProduct 1 "renamed"
              (JsNumber_of_Decimal (mkDecimal 99 FZero)) "new.png")
           sample_world sample_line).
  - left. reflexivity.
  - reflexivity.
Defined.

(* ================================================================= *)
(** ** Removing and changing a quantity *)

(** C4, as the code has it.  [removeFromCart] always completes, returns
    no value, and leaves the cart without the lines of that id; when no
    line has the id the cart is what it was.  In both cases it shows
    'Item removed from cart'. *)
Theorem removeFromCart_removes (productId : Z) (w : World) :
  exists w',
    removeFromCart productId w = Normal tt w' /\
    cart w' = filter (fun item => negb (id item =? productId)) (cart w) /\
    (forall item,
        In item (cart w') <-> In item (cart w) /\ id item <> productId) /\
    notifications w' = notifications w ++ ["Item removed from cart"] /\
    ((forall item, In item (cart w) -> id item <> productId) ->
     cart w' = cart w).
Proof.
  rewrite removeFromCart_run. eexists. split; [reflexivity|]. cbn.
  split; [reflexivity|]. split; [apply filter_removes|].
  split; [reflexivity|]. apply filter_absent.
Qed.

Lemma removeFromCart_removes_witness :
  exists w',
    removeFromCart 2 sample_world = Normal tt w' /\
    cart w' = cart sample_world /\
    notifications w' = ["Item removed from cart"].
Proof.
  destruct (removeFromCart_removes 2 sample_world)
    as (w' & Hrun & _ & _ & Hshown & Habsent).
  exists w'. split; [exact Hrun|]. split; [|exact Hshown].
  apply Habsent. intros item [<-|[]]. discriminate.
Defined.

(** C4, as stated, fails: a call that removes a line and a call that
    finds no line to remove end alike, with the same (absent) return
    value and the same message, so nothing states whether a line was
    removed. *)
Lemma removeFromCart_reports_alike :
  exists w1 w2,
    removeFromCart 1 sample_world = Normal tt w1 /\
    removeFromCart 2 sample_world = Normal tt w2 /\
    cart w1 = [] /\
    cart w2 = cart sample_world /\
    notifications w1 = ["Item removed from cart"] /\
    notifications w2 = ["Item removed from cart"].
Proof. do 2 eexists. repeat split. Qed.

(** C3, as the code has it.  [updateQuantity] always completes and
    returns no value.  When no line has the id, nothing changes at all.
    When the first line with the id would get a quantity of 0 or less,
    the call is [removeFromCart] of that id: the lines of the id are gone
    and 'Item removed from cart' is shown.  Otherwise that line gets the
    new quantity, the cart is saved and no message is shown. *)
Theorem updateQuantity_cases (productId change : Z) (w : World) :
  ((forall item, In item (cart w) -> id item <> productId) ->
   updateQuantity productId change w = Normal tt w) /\
  (forall before found after,
      cart w = before ++ found :: after ->
      (forall x, In x before -> id x <> productId) ->
      id found = productId ->
      (quantity found + change <= 0 ->
       exists w',
         updateQuantity productId change w = Normal tt w' /\
         removeFromCart productId w = Normal tt w' /\
         cart w' = filter (fun item => negb (id item =? productId)) (cart w) /\
         notifications w' = notifications w ++ ["Item removed from cart"]) /\
      (0 < quantity found + change ->
       exists w',
         updateQuantity productId change w = Normal tt w' /\
         cart w' = before ++ with_quantity_added change found :: after /\
         localStorage w' = persisted (cart w') (localStorage w) /\
         notifications w' = notifications w)).
Proof.
  split.
  - intros Habsent. rewrite updateQuantity_run.
    apply find_none_iff in Habsent. rewrite Habsent. reflexivity.
  - intros before found after Heq Hb Hid.
    rewrite updateQuantity_run, Heq, (split_find _ _ _ _ Hb Hid).
    rewrite <- Heq. cbv zeta. split.
    + intros Hle. apply Z.leb_le in Hle. rewrite Hle.
      rewrite !removeFromCart_run. cbn.
      rewrite filter_add_quantity. eexists. repeat split.
    + intros Hlt. apply Z.leb_gt in Hlt. rewrite Hlt.
      eexists. split; [reflexivity|]. cbn.
      rewrite Heq, (split_add_quantity _ _ _ _ _ Hb Hid). repeat split.
Qed.

Lemma updateQuantity_cases_witness :
  updateQuantity 2 1 sample_world = Normal tt sample_world /\
  (exists w',
      updateQuantity 1 (-1) sample_world = Normal tt w' /\
      removeFromCart 1 sample_world = Normal tt w' /\
      cart w' = [] /\
      notifications w' = ["Item removed from cart"]) /\
  (exists w',
      updateQuantity 1 2 sample_world = Normal tt w' /\
      cart w' = [with_quantity_added 2 sample_line] /\
      localStorage w' = persisted (cart w') [] /\
      notifications w' = []).
Proof.
  split; [|split].
  - apply (proj1 (updateQuantity_cases 2 1 sample_world)).
    intros item [<-|[]]. discriminate.
  - destruct (proj2 (updateQuantity_cases 1 (-1) sample_world)
                [] sample_line [] eq_refl
                (fun x (H : In x []) => match H with end) eq_refl)
      as [Hremove _].
    apply Hremove. cbn. lia.
  - destruct (proj2 (updateQuantity_cases 1 2 sample_world)
                [] sample_line [] eq_refl
                (fun x (H : In x []) => match H with end) eq_refl)
      as [_ Hupdate].
    apply Hupdate. cbn. lia.
Defined.

(** C3, as stated, fails: a call that sets a new quantity shows no
    message, exactly like a call that finds no line, and unlike
    [addToCart], which shows 'Quantity updated in cart!' when it raises
    a quantity. *)
Lemma updateQuantity_update_reports_nothing :
  exists w',
    updateQuantity 1 1 sample_world = Normal tt w' /\
    cart w' = [with_quantity_added 1 sample_line] /\
    notifications w' = notifications sample_world /\
    notifications w' <>
    notifications sample_world ++ ["Quantity updated in cart!"] /\
    updateQuantity 2 1 sample_world = Normal tt sample_world.
Proof.
  eexists. split; [vm_compute; reflexivity|]. cbn. repeat split.
  discriminate.
Qed.

(** C10.  In a cart whose quantities are all at least 1,
    [updateQuantity] with a change of 0 on an id of the cart completes
    and leaves the cart exactly as it was, and shows nothing. *)
Theorem updateQuantity_zero_identity (productId : Z) (w : World)
    (item : CartLine) :
  Forall (fun line => 1 <= quantity line) (cart w) ->
  In item (cart w) -> id item = productId ->
  exists w',
    updateQuantity productId 0 w = Normal tt w' /\
    cart w' = cart w /\
    notifications w' = notifications w.
Proof.
  intros Hq Hin Hid.
  destruct (find_some_of_In _ _ _ Hin Hid) as [found Hfind].
  destruct (find_some_split _ _ _ Hfind)
    as (before & after & Heq & Hb & Hfid & Hadd).
  assert (Hfound : 1 <= quantity found).
  { rewrite Forall_forall in Hq. apply Hq. rewrite Heq.
    apply in_or_app. right. left. reflexivity. }
  rewrite updateQuantity_run, Hfind. cbv zeta.
  replace (quantity found + 0 <=? 0) with false
    by (symmetry; apply Z.leb_gt; lia).
  eexists. split; [reflexivity|]. cbn. split; [|reflexivity].
  rewrite Hadd, Heq. f_equal. f_equal.
  destruct found; unfold with_quantity_added; cbn. f_equal. lia.
Qed.

Lemma updateQuantity_zero_identity_witness :
  exists w',
    updateQuantity 1 0 sample_world = Normal tt w' /\
    cart w' = cart sample_world /\
    notifications w' = notifications sample_world.
Proof.
  apply (updateQuantity_zero_identity 1 sample_world sample_line).
  - repeat constructor. cbn. lia.
  - left. reflexivity.
  - reflexivity.
Defined.

(* ================================================================= *)
(** ** Totals *)

(** C5.  [calculateTotal] completes with the sum over the lines of
    price times quantity and [getTotalItems] with the sum of the
    quantities, both computed from the cart as it is and both leaving
    the world as it was; on the empty cart both give 0. *)
Theorem totals_are_sums (w : World) :
  (exists total,
      calculateTotal w = Normal total w /\
      Amount_eq total (sum_of_line_totals (cart w))) /\
  getTotalItems w = Normal (sum_of_quantities (cart w)) w /\
  (forall entries shown open,
      calculateTotal (mkWorld [] entries shown open) =
      Normal (Exact 0) (mkWorld [] entries shown open) /\
      getTotalItems (mkWorld [] entries shown open) =
      Normal 0 (mkWorld [] entries shown open)).
Proof.
  split; [|split].
  - eexists. split; [reflexivity|].
    rewrite fold_left_line_totals. apply Amount_add_0_l.
  - apply getTotalItems_run.
  - intros entries shown open. split; reflexivity.
Qed.

(* ================================================================= *)
(** ** Counting *)

Lemma addToCart_counts (product : Product) (w : World) :
  exists w',
    addToCart product w = Normal tt w' /\
    sum_of_quantities (cart w') = sum_of_quantities (cart w) + 1 /\
    (In (product_id product) (map id (cart w)) ->
     map id (cart w') = map id (cart w)) /\
    (~ In (product_id product) (map id (cart w)) ->
     map id (cart w') = map id (cart w) ++ [product_id product]).
Proof.
  rewrite addToCart_run.
  destruct (find _ (cart w)) as [found|] eqn:Hfind.
  - eexists. split; [reflexivity|]. cbn.
    destruct (find_some_split _ _ _ Hfind)
      as (before & after & Heq & Hb & Hid & Hadd).
    split; [|split].
    + rewrite Hadd, Heq, !sum_of_quantities_app. cbn. lia.
    + intros _. apply add_quantity_ids.
    + intros Hnot. exfalso. apply Hnot. rewrite Heq, map_app, <- Hid.
      apply in_or_app. right. left. reflexivity.
  - eexists. split; [reflexivity|]. cbn.
    split; [|split].
    + rewrite sum_of_quantities_app. cbn. lia.
    + intros Hin. exfalso. apply in_map_iff in Hin.
      destruct Hin as (item & Hid & Hin).
      apply (proj1 (find_none_iff _ _) Hfind item Hin Hid).
    + intros _. rewrite map_app. reflexivity.
Qed.

Lemma addAll_from (products : list Product) :
  forall w,
  exists w',
    addAll products w = Normal tt w' /\
    sum_of_quantities (cart w') =
    sum_of_quantities (cart w) + Z.of_nat (List.length products) /\
    (NoDup (map id (cart w) ++ map product_id products) ->
     map id (cart w') = map id (cart w) ++ map product_id products).
Proof.
  induction products as [|p products IH]; intros w.
  - exists w. split; [reflexivity|]. split; [cbn; lia|].
    intros _. cbn. rewrite List.app_nil_r. reflexivity.
  - destruct (addToCart_counts p w) as (w1 & Hrun1 & Hsum1 & _ & Hnew).
    destruct (IH w1) as (w' & Hrun & Hsum & Hids).
    exists w'. split; [|split].
    + cbn. unfold bind. rewrite Hrun1. exact Hrun.
    + rewrite Hsum, Hsum1. cbn [List.length]. lia.
    + intros Hnodup. cbn [map] in Hnodup.
      assert (Hfresh : ~ In (product_id p) (map id (cart w))).
      { intros Hin. apply NoDup_remove_2 in Hnodup. apply Hnodup.
        apply in_or_app. left. exact Hin. }
      rewrite Hids, (Hnew Hfresh), <- List.app_assoc; [reflexivity|].
      rewrite (Hnew Hfresh), <- List.app_assoc. exact Hnodup.
Qed.

(** C6.  After any sequence of [addToCart] calls from the empty cart,
    [getTotalItems] gives the number of calls; when the ids of the
    sequence are all distinct the cart has as many lines as there were
    calls; and one more call with an id that the cart already holds
    raises [getTotalItems] by 1 and leaves the number of lines as it
    was. *)
Theorem addAll_counts (products : list Product) entries shown open :
  exists w',
    addAll products (mkWorld [] entries shown open) = Normal tt w' /\
    getTotalItems w' = Normal (Z.of_nat (List.length products)) w' /\
    (NoDup (map product_id products) ->
     List.length (cart w') = List.length products) /\
    (forall product item,
        In item (cart w') -> id item = product_id product ->
        exists w'',
          addToCart product w' = Normal tt w'' /\
          getTotalItems w'' =
          Normal (Z.of_nat (List.length products) + 1) w'' /\
          List.length (cart w'') = List.length (cart w')).
Proof.
  destruct (addAll_from products (mkWorld [] entries shown open))
    as (w' & Hrun & Hsum & Hids).
  cbn in Hsum, Hids.
  exists w'. split; [exact Hrun|]. split; [|split].
  - rewrite getTotalItems_run, Hsum. reflexivity.
  - intros Hnodup.
    rewrite <- (length_map id (cart w')), (Hids Hnodup). apply length_map.
  - intros product item Hin Hid.
    destruct (addToCart_counts product w') as (w'' & Hrun' & Hsum' & Hold & _).
    exists w''. split; [exact Hrun'|]. split.
    + rewrite getTotalItems_run, Hsum', Hsum. reflexivity.
    + rewrite <- (length_map id (cart w'')), Hold; [apply length_map|].
      rewrite <- Hid. apply in_map. exact Hin.
Qed.

Lemma addAll_counts_witness :
  (exists w',
      addAll [sample_product; other_product; sample_product] empty_world =
      Normal tt w' /\
      getTotalItems w' = Normal 3 w' /\
      exists w'',
        addToCart sample_product w' = Normal tt w'' /\
        getTotalItems w'' = Normal 4 w'' /\
        List.length (cart w'') = List.length (cart w')) /\
  (exists w',
      addAll [sample_product; other_product] empty_world = Normal tt w' /\
      List.length (cart w') = 2%nat).
Proof.
  split.
  - destruct (addAll_counts [sample_product; other_product; sample_product]
                [] [] false) as (w' & Hrun & Hcount & _ & Hrepeat).
    exists w'. split; [exact Hrun|]. split; [exact Hcount|].
    apply (Hrepeat sample_product (with_quantity_added 1 sample_line)).
    + vm_compute in Hrun. injection Hrun as <-. left. reflexivity.
    + reflexivity.
  - destruct (addAll_counts [sample_product; other_product] [] [] false)
      as (w' & Hrun & _ & Hdistinct & _).
    exists w'. split; [exact Hrun|]. apply Hdistinct.
    repeat constructor; cbn; intuition discriminate.
Defined.

(* ================================================================= *)
(** ** The cart invariant *)

Lemma filter_ids_NoDup productId (c : Cart) :
  NoDup (map id c) ->
  NoDup (map id (filter (fun item => negb (id item =? productId)) c)).
Proof.
  induction c as [|x c IH]; cbn; intros Hnodup; [constructor|].
  inversion Hnodup as [|? ? Hnotin Hrest]; subst.
  destruct (negb (id x =? productId)); cbn; [|auto].
  constructor; [|auto].
  intros Hin. apply Hnotin. apply in_map_iff in Hin.
  destruct Hin as (item & Hid & Hin). apply filter_In in Hin.
  apply in_map_iff. exists item. tauto.
Qed.

Lemma addToCart_invariant (product : Product) (w : World) :
  cart_invariant (cart w) ->
  exists w', addToCart product w = Normal tt w' /\ cart_invariant (cart w').
Proof.
  intros [Hids Hq]. rewrite addToCart_run.
  destruct (find _ (cart w)) as [found|] eqn:Hfind.
  - eexists. split; [reflexivity|]. cbn. split.
    + rewrite add_quantity_ids. exact Hids.
    + destruct (find_some_split _ _ _ Hfind)
        as (before & after & Heq & _ & _ & Hadd).
      rewrite Hadd. rewrite Heq in Hq.
      apply Forall_app in Hq. destruct Hq as [Hbefore Hrest].
      inversion Hrest as [|? ? Hfound Hafter]; subst.
      apply Forall_app. split; [exact Hbefore|].
      constructor; [cbn; lia | exact Hafter].
  - eexists. split; [reflexivity|]. cbn. split.
    + rewrite map_app. apply NoDup_app;
        [exact Hids | repeat constructor; intros [] |].
      intros z Hin [<-|[]]. apply in_map_iff in Hin.
      destruct Hin as (item & Hid & Hin).
      apply (proj1 (find_none_iff _ _) Hfind item Hin Hid).
    + apply Forall_app. split; [exact Hq|].
      repeat constructor. cbn. lia.
Qed.

Lemma removeFromCart_invariant (productId : Z) (w : World) :
  cart_invariant (cart w) ->
  exists w',
    removeFromCart productId w = Normal tt w' /\ cart_invariant (cart w').
Proof.
  intros [Hids Hq]. rewrite removeFromCart_run.
  eexists. split; [reflexivity|]. cbn. split.
  - apply filter_ids_NoDup. exact Hids.
  - rewrite Forall_forall in *. intros item Hin.
    apply filter_In in Hin. apply Hq. tauto.
Qed.

Lemma updateQuantity_invariant (productId change : Z) (w : World) :
  cart_invariant (cart w) ->
  exists w',
    updateQuantity productId change w = Normal tt w' /\
    cart_invariant (cart w').
Proof.
  intros Hinv. rewrite updateQuantity_run.
  destruct (find _ (cart w)) as [found|] eqn:Hfind.
  - cbv zeta. destruct (Z.leb_spec (quantity found + change) 0) as [Hle|Hlt].
    + rewrite removeFromCart_run. eexists. split; [reflexivity|]. cbn.
      rewrite filter_add_quantity.
      destruct (removeFromCart_invariant productId w Hinv)
        as (w' & Hrun & Hinv').
      rewrite removeFromCart_run in Hrun. injection Hrun as <-.
      exact Hinv'.
    + eexists. split; [reflexivity|]. cbn.
      destruct Hinv as [Hids Hq]. split.
      * rewrite add_quantity_ids. exact Hids.
      * destruct (find_some_split _ _ _ Hfind)
          as (before & after & Heq & _ & _ & Hadd).
        rewrite Hadd. rewrite Heq in Hq.
        apply Forall_app in Hq. destruct Hq as [Hbefore Hrest].
        inversion Hrest as [|? ? Hfound Hafter]; subst.
        apply Forall_app. split; [exact Hbefore|].
        constructor; [cbn; lia | exact Hafter].
  - exists w. split; [reflexivity | exact Hinv].
Qed.

(** C8.  Each of [addToCart], [removeFromCart] and [updateQuantity]
    completes and takes a cart with unique ids and quantities of at
    least 1 to such a cart; so every cart that they reach from the empty
    cart has unique ids and quantities of at least 1. *)
Theorem operations_preserve_invariant :
  (forall w,
      cart_invariant (cart w) ->
      (forall product,
          exists w',
            addToCart product w = Normal tt w' /\ cart_invariant (cart w')) /\
      (forall productId,
          exists w',
            removeFromCart productId w = Normal tt w' /\
            cart_invariant (cart w')) /\
      (forall productId change,
          exists w',
            updateQuantity productId change w = Normal tt w' /\
            cart_invariant (cart w'))) /\
  (forall w, reachable w -> cart_invariant (cart w)).
Proof.
  split.
  - intros w Hinv. split; [|split].
    + intros product. apply addToCart_invariant. exact Hinv.
    + intros productId. apply removeFromCart_invariant. exact Hinv.
    + intros productId change. apply updateQuantity_invariant. exact Hinv.
  - intros w Hreach.
    induction Hreach as [entries shown open
                        | w w' product _ IH Hrun
                        | w w' productId _ IH Hrun
                        | w w' productId change _ IH Hrun].
    + split; constructor.
    + destruct (addToCart_invariant product w IH) as (w1 & Hrun1 & Hinv).
      congruence.
    + destruct (removeFromCart_invariant productId w IH)
        as (w1 & Hrun1 & Hinv).
      congruence.
    + destruct (updateQuantity_invariant productId change w IH)
        as (w1 & Hrun1 & Hinv).
      congruence.
Qed.

Lemma operations_preserve_invariant_witness :
  (exists w',
      addToCart other_product sample_world = Normal tt w' /\
      cart_invariant (cart w')) /\
  (exists w',
      updateQuantity 1 (-1) sample_world = Normal tt w' /\
      cart_invariant (cart w')) /\
  (exists w',
      addToCart sample_product empty_world = Normal tt w' /\
      cart w' = [sample_line] /\
      cart_invariant (cart w')).
Proof.
  assert (Hsample : cart_invariant (cart sample_world)).
  { split; repeat constructor; cbn; [intros [] | lia]. }
  destruct operations_preserve_invariant as [Hstep Hreach].
  destruct (Hstep sample_world Hsample) as (Hadd & _ & Hupdate).
  split; [apply Hadd|]. split; [apply Hupdate|].
  eexists. split; [vm_compute; reflexivity|]. split; [reflexivity|].
  apply Hreach.
  apply (reach_add empty_world _ sample_product).
  - constructor.
  - vm_compute. reflexivity.
Defined.

(* ================================================================= *)
(** ** Reading back what [JSON.stringify] wrote *)

Local Open Scope string_scope.

(** *** Digits and numbers *)

Lemma append_assoc (a b c : string) : (a ++ b) ++ c = a ++ (b ++ c).
Proof. induction a as [|x a IH]; cbn; [reflexivity | rewrite IH; reflexivity]. Qed.

Lemma delimiter_cases c :
  delimiter c = true -> c = ","%char \/ c = "]"%char \/ c = "}"%char.
Proof.
  unfold delimiter. intros H.
  apply orb_true_iff in H. destruct H as [H|H].
  - apply orb_true_iff in H. destruct H as [H|H]; apply Ascii.eqb_eq in H; auto.
  - apply Ascii.eqb_eq in H. auto.
Qed.

Ltac by_delimiter H :=
  destruct (delimiter_cases _ H) as [->|[->| ->]]; reflexivity.

Lemma scan_digits_stop c r :
  digit_of_char c = None -> scan_digits (String c r) = (Nil, String c r).
Proof. intros H. cbn [scan_digits]. rewrite H. reflexivity. Qed.

Lemma scan_digits_cons c rest k :
  digit_of_char c = Some k ->
  scan_digits (String c rest) = let (u, r) := scan_digits rest in (k u, r).
Proof. intros H. cbn [scan_digits]. rewrite H. reflexivity. Qed.

Ltac scan_one_digit IH :=
  cbn [NilEmpty.string_of_uint append uint_snoc];
  erewrite scan_digits_cons by reflexivity;
  rewrite IH; reflexivity.

Lemma scan_digits_uint (d : uint) c r :
  digit_of_char c = None ->
  scan_digits (NilEmpty.string_of_uint d ++ String c r) = (d, String c r).
Proof.
  intros Hc. induction d as [|d IH|d IH|d IH|d IH|d IH|d IH|d IH|d IH|d IH|d IH];
    [apply scan_digits_stop; exact Hc | scan_one_digit IH ..].
Qed.

Lemma scan_digits_snoc (init : uint) (last : nzdigit) c r :
  digit_of_char c = None ->
  scan_digits
    (NilEmpty.string_of_uint init ++ String (char_of_nzdigit last) (String c r)) =
  (uint_snoc init last, String c r).
Proof.
  intros Hc.
  induction init as [|d IH|d IH|d IH|d IH|d IH|d IH|d IH|d IH|d IH|d IH];
    [|scan_one_digit IH ..].
  destruct last; cbn [NilEmpty.string_of_uint append uint_snoc char_of_nzdigit];
    erewrite scan_digits_cons by reflexivity;
    rewrite (scan_digits_stop _ _ Hc); reflexivity.
Qed.

Lemma Fraction_of_uint_snoc init last :
  Fraction_of_uint (uint_snoc init last) = FDigits init last.
Proof.
  induction init; cbn; [destruct last; reflexivity | ..];
    rewrite IHinit; reflexivity.
Qed.

Lemma uint_snoc_nonnil init last : uint_snoc init last <> Nil.
Proof. destruct init; [destruct last|..]; discriminate. Qed.

Lemma nzhead_no_zero u u' : nzhead u <> D0 u'.
Proof. induction u; cbn; try discriminate. exact IHu. Qed.

Lemma to_uint_canonical (n : N) :
  N.to_uint n = D0 Nil \/
  (N.to_uint n <> Nil /\ forall u, N.to_uint n <> D0 u).
Proof.
  destruct n as [|p]; [left; reflexivity|right].
  cbn [N.to_uint]. split; [apply DecimalPos.Unsigned.to_uint_nonnil|].
  intros u Hu.
  pose proof (DecimalPos.Unsigned.to_of (Pos.to_uint p)) as H.
  rewrite DecimalPos.Unsigned.of_to in H. cbn [N.to_uint] in H.
  rewrite Hu in H. rewrite unorm_D0 in H. unfold unorm in H.
  destruct (nzhead u) eqn:E; try discriminate.
  - injection H as ->. apply (DecimalPos.Unsigned.to_uint_nonzero p). exact Hu.
  - apply (nzhead_no_zero u u0). exact E.
Qed.

Lemma delimiter_no_digit c : delimiter c = true -> digit_of_char c = None.
Proof. intros H. by_delimiter H. Qed.

Lemma parse_fraction_text (f : Fraction) c r :
  delimiter c = true ->
  parse_fraction (Fraction_to_string f ++ String c r) =
  Some (match f with FZero => Nil | FDigits init last => uint_snoc init last end,
        String c r).
Proof.
  intros Hc. destruct f as [|init last].
  - by_delimiter Hc.
  - cbn [Fraction_to_string append parse_fraction].
    rewrite append_assoc. cbn [append].
    rewrite (scan_digits_snoc init last c r (delimiter_no_digit _ Hc)).
    pose proof (uint_snoc_nonnil init last).
    destruct (uint_snoc init last); [contradiction | reflexivity ..].
Qed.

Lemma parse_exponent_delimiter c r :
  delimiter c = true -> parse_exponent (String c r) = Some (0%Z, String c r).
Proof. intros H. by_delimiter H. Qed.

(** What follows the integer part starts with a point or a delimiter. *)
Lemma Fraction_text_head (f : Fraction) c r :
  delimiter c = true ->
  exists c' r', Fraction_to_string f ++ String c r = String c' r' /\
                digit_of_char c' = None.
Proof.
  intros Hc. destruct f as [|init last].
  - exists c, r. split; [reflexivity | apply delimiter_no_digit; exact Hc].
  - eexists _, _. split; reflexivity.
Qed.

Lemma parse_magnitude_text (d : Decimal) c r :
  delimiter c = true ->
  parse_magnitude (Decimal_to_string d ++ String c r) = Some (d, String c r).
Proof.
  intros Hc. destruct d as [i f]. unfold Decimal_to_string, parse_magnitude.
  cbn [ipart fpart]. rewrite append_assoc.
  assert (Hscan : scan_digits
            (NilZero.string_of_uint (N.to_uint i) ++
             Fraction_to_string f ++ String c r) =
          (N.to_uint i, Fraction_to_string f ++ String c r)).
  { destruct (Fraction_text_head f c r Hc) as (c' & r' & -> & Hc').
    unfold NilZero.string_of_uint.
    pose proof (scan_digits_uint (N.to_uint i) c' r' Hc') as Hs.
    destruct (to_uint_canonical i) as [E|[E _]].
    - rewrite E. rewrite E in Hs. exact Hs.
    - destruct (N.to_uint i); [contradiction | exact Hs ..]. }
  rewrite Hscan.
  assert (Hrest :
    match parse_fraction (Fraction_to_string f ++ String c r) with
    | Some (f0, s3) =>
        match parse_exponent s3 with
        | Some (e, s4) =>
            let (i', f') := scale e (N.to_uint i, f0) in
            Some ({| ipart := N.of_uint i'; fpart := Fraction_of_uint f' |}, s4)
        | None => None
        end
    | None => None
    end = Some ({| ipart := i; fpart := f |}, String c r)).
  { rewrite (parse_fraction_text f c r Hc), (parse_exponent_delimiter c r Hc).
    cbn [scale]. rewrite DecimalN.Unsigned.of_to.
    destruct f; [reflexivity|]. rewrite Fraction_of_uint_snoc. reflexivity. }
  destruct (to_uint_canonical i) as [E|[E1 E2]].
  - rewrite E in *. exact Hrest.
  - destruct (N.to_uint i) as [|u|u|u|u|u|u|u|u|u|u];
      [contradiction | exfalso; apply (E2 u); reflexivity | exact Hrest ..].
Qed.

(** *** Strings and numbers as values *)

Lemma parse_escape_char (c : ascii) (tail : string) :
  parse_string_body (escape_char c ++ tail) =
  match parse_string_body tail with
  | Some (body, r) => Some (String c body, r)
  | None => None
  end.
Proof. destruct c as [[] [] [] [] [] [] [] []]; reflexivity. Qed.

Lemma parse_escape_string (s rest : string) :
  parse_string_body (escape_string s ++ String dquote rest) = Some (s, rest).
Proof.
  induction s as [|c s IH]; [reflexivity|].
  cbn [escape_string]. rewrite append_assoc, parse_escape_char, IH. reflexivity.
Qed.

Lemma parse_value_string (n : nat) (s rest : string) :
  parse_value (S n) (String dquote (escape_string s ++ String dquote rest)) =
  Some (JStr s, rest).
Proof.
  cbn [parse_value skip_ws is_ws dquote].
  change (String "034" ?x) with (String dquote x).
  cbn. rewrite parse_escape_string. reflexivity.
Qed.

Lemma Decimal_text_head (d : Decimal) (rest : string) :
  exists k tail,
    Decimal_to_string d ++ rest = String k tail /\ is_digit k = true.
Proof.
  destruct d as [i f]. unfold Decimal_to_string. cbn [ipart fpart].
  rewrite append_assoc. unfold NilZero.string_of_uint.
  destruct (N.to_uint i); cbn [NilEmpty.string_of_uint append];
    eexists _, _; split; reflexivity.
Qed.

Lemma parse_value_digit (n : nat) (k : ascii) (tail : string) :
  is_digit k = true ->
  parse_value (S n) (String k tail) =
  option_map (fun '(d, r) => (JNum (mkNumber false d), r))
    (parse_magnitude (String k tail)).
Proof.
  intros Hk.
  destruct k as [[] [] [] [] [] [] [] []]; try discriminate Hk;
    cbn [parse_value skip_ws is_ws Ascii.eqb Bool.eqb dquote parse_number];
    destruct (parse_magnitude _) as [[d r]|]; reflexivity.
Qed.

Lemma parse_value_minus (n : nat) (tail : string) :
  parse_value (S n) (String "-" tail) =
  option_map (fun '(d, r) => (JNum (mkNumber true d), r))
    (parse_magnitude tail).
Proof.
  cbn [parse_value skip_ws is_ws Ascii.eqb Bool.eqb dquote parse_number].
  destruct (parse_magnitude _) as [[d r]|]; reflexivity.
Qed.

Lemma parse_value_decimal (n : nat) (d : Decimal) c r :
  delimiter c = true ->
  parse_value (S n) (Number_to_string (mkNumber false d) ++ String c r) =
  Some (JNum (mkNumber false d), String c r).
Proof.
  intros Hc. unfold Number_to_string. cbn [negative magnitude andb append].
  destruct (Decimal_text_head d (String c r)) as (k & tail & Heq & Hk).
  rewrite Heq, (parse_value_digit n k tail Hk), <- Heq.
  rewrite (parse_magnitude_text d c r Hc). reflexivity.
Qed.

Lemma parse_value_integer (n : nat) (z : Z) c r :
  delimiter c = true ->
  parse_value (S n) (Number_to_string (Number_of_Z z) ++ String c r) =
  Some (JNum (Number_of_Z z), String c r).
Proof.
  intros Hc. destruct (Z.ltb_spec z 0) as [Hneg|Hpos].
  - unfold Number_to_string, Number_of_Z, Decimal_of_N, Decimal_is_zero.
    cbn [negative magnitude ipart fpart].
    replace (z <? 0)%Z with true by (symmetry; apply Z.ltb_lt; exact Hneg).
    replace (Z.abs_N z =? 0)%N with false
      by (symmetry; apply N.eqb_neq; lia).
    cbn [andb negb append].
    rewrite parse_value_minus, (parse_magnitude_text _ c r Hc). reflexivity.
  - unfold Number_of_Z.
    replace (z <? 0)%Z with false by (symmetry; apply Z.ltb_ge; exact Hpos).
    apply parse_value_decimal. exact Hc.
Qed.

Lemma parse_value_number (n : nat) (x : Number) c r :
  delimiter c = true ->
  parse_value (S n) (Number_to_string x ++ String c r) =
  Some (JNum (Number_read_back x), String c r).
Proof.
  intros Hc. destruct x as [[|] d]; unfold Number_read_back;
    cbn [negative magnitude andb].
  - destruct (Decimal_is_zero d) eqn:Hzero.
    + change (Number_to_string (mkNumber true d))
        with ((if true && negb (Decimal_is_zero d) then "-" else "") ++
              Decimal_to_string d).
      rewrite Hzero. cbn [andb negb].
      apply (parse_value_decimal n d c r Hc).
    + change (Number_to_string (mkNumber true d))
        with ((if true && negb (Decimal_is_zero d) then "-" else "") ++
              Decimal_to_string d).
      rewrite Hzero. cbn [andb negb append].
      rewrite parse_value_minus, (parse_magnitude_text _ c r Hc).
      reflexivity.
  - apply parse_value_decimal. exact Hc.
Qed.

(** A price is read back as the number it is when it is finite, and as
    [null] when it is not. *)
Lemma parse_value_price (n : nat) (item : CartLine) c r :
  delimiter c = true ->
  parse_value (S n)
    (JSON_stringify (value_of_number (price item)) ++ String c r) =
  Some (value_of_number (price (line_read_back item)), String c r).
Proof.
  intros Hc. unfold line_read_back. cbn [price].
  destruct (price item) as [x| |minus]; cbn [value_of_number].
  - apply (parse_value_number n x c r Hc).
  - reflexivity.
  - reflexivity.
Qed.

(** *** Cart lines and carts *)

Lemma length_append (a b : string) :
  String.length (a ++ b) = (String.length a + String.length b)%nat.
Proof. induction a as [|x a IH]; cbn; [reflexivity | rewrite IH; reflexivity]. Qed.

Lemma parse_value_object (f : nat) (key tail : string) :
  parse_value (S f) (String "{" (quote_string key ++ tail)) =
  option_map (fun '(kvs, r) => (JObj kvs, r))
    (parse_members f (quote_string key ++ tail)).
Proof. reflexivity. Qed.

Lemma parse_value_array (f : nat) (item : CartLine) (tail : string) :
  parse_value (S f) (String "[" (line_text_onto item tail)) =
  option_map (fun '(vs, r) => (JArr vs, r))
    (parse_elements f (line_text_onto item tail)).
Proof. reflexivity. Qed.

Lemma parse_members_step (f : nat) (key tail : string) :
  parse_members (S f) (quote_string key ++ String ":" tail) =
  match parse_value f tail with
  | None => None
  | Some (v, s3) =>
      match skip_ws s3 with
      | String "}" r => Some ([(key, v)], r)
      | String "," r =>
          option_map (fun '(kvs, r') => ((key, v) :: kvs, r'))
            (parse_members f r)
      | _ => None
      end
  end.
Proof.
  unfold quote_string. cbn [append]. rewrite append_assoc. cbn [append].
  cbn [parse_members skip_ws is_ws dquote Ascii.eqb Bool.eqb].
  change (String "034" ?x) with (String dquote x).
  rewrite parse_escape_string. reflexivity.
Qed.

Lemma parse_elements_step (f : nat) (s : string) :
  parse_elements (S f) s =
  match parse_value f s with
  | None => None
  | Some (v, s1) =>
      match skip_ws s1 with
      | String "]" r => Some ([v], r)
      | String "," r =>
          option_map (fun '(vs, r') => (v :: vs, r')) (parse_elements f r)
      | _ => None
      end
  end.
Proof. reflexivity. Qed.

Lemma parse_value_line (f : nat) (item : CartLine) (rest : string) :
  (7 <= f)%nat ->
  parse_value f (line_text_onto item rest) =
  Some (value_of_line (line_read_back item), rest).
Proof.
  intros Hf.
  do 7 (destruct f as [|f]; [lia|]). clear Hf.
  unfold line_text_onto. cbv zeta.
  rewrite parse_value_object.
  rewrite parse_members_step, parse_value_integer by reflexivity.
  cbn [skip_ws is_ws].
  rewrite parse_members_step, parse_value_string.
  cbn [skip_ws is_ws].
  rewrite parse_members_step, parse_value_price by reflexivity.
  cbn [skip_ws is_ws].
  rewrite parse_members_step, parse_value_string.
  cbn [skip_ws is_ws].
  rewrite parse_members_step, parse_value_integer by reflexivity.
  reflexivity.
Qed.

Lemma stringify_line (item : CartLine) :
  JSON_stringify (value_of_line item) =
  "{" ++
  (quote_string "id" ++ ":" ++ Number_to_string (Number_of_Z (id item)) ++ "," ++
   quote_string "title" ++ ":" ++ quote_string (title item) ++ "," ++
   quote_string "price" ++ ":" ++
   JSON_stringify (value_of_number (price item)) ++ "," ++
   quote_string "image" ++ ":" ++ quote_string (image item) ++ "," ++
   quote_string "quantity" ++ ":" ++
   Number_to_string (Number_of_Z (quantity item))) ++
  "}".
Proof. reflexivity. Qed.

Lemma line_text_onto_eq (item : CartLine) (rest : string) :
  JSON_stringify (value_of_line item) ++ rest = line_text_onto item rest.
Proof.
  rewrite stringify_line. unfold line_text_onto.
  unfold quote_string. repeat rewrite append_assoc. cbn [append].
  repeat rewrite append_assoc. cbn [append]. reflexivity.
Qed.

Lemma lines_text_onto_cons (item : CartLine) (c : Cart) (rest : string) :
  lines_text_onto (item :: c) rest =
  line_text_onto item
    match c with
    | [] => rest
    | _ :: _ => String "," (lines_text_onto c rest)
    end.
Proof. destruct c; reflexivity. Qed.

Lemma lines_text_onto_eq (c : Cart) (rest : string) :
  items_text (map value_of_line c) ++ rest = lines_text_onto c rest.
Proof.
  induction c as [|item c IH]; [reflexivity|].
  destruct c as [|item' c].
  - apply line_text_onto_eq.
  - change (items_text (map value_of_line (item :: item' :: c)))
      with (JSON_stringify (value_of_line item) ++ "," ++
            items_text (map value_of_line (item' :: c))).
    rewrite lines_text_onto_cons, <- IH, <- line_text_onto_eq.
    rewrite !append_assoc. reflexivity.
Qed.

Lemma stringify_array (vs : list JsValue) :
  JSON_stringify (JArr vs) = String "[" (items_text vs ++ "]").
Proof.
  reflexivity.
Qed.

Lemma parse_elements_lines (c : Cart) :
  forall (item : CartLine) (fuel : nat) (rest : string),
    (List.length c + 8 <= fuel)%nat ->
    parse_elements fuel (lines_text_onto (item :: c) (String "]" rest)) =
    Some (map value_of_line (map line_read_back (item :: c)), rest).
Proof.
  induction c as [|item' c IH]; intros item fuel rest Hfuel;
    (destruct fuel as [|f]; [lia|]);
    rewrite parse_elements_step, lines_text_onto_cons,
      parse_value_line by (cbn [List.length] in Hfuel; lia).
  - reflexivity.
  - cbn [skip_ws is_ws].
    rewrite IH by (cbn [List.length] in Hfuel; lia). reflexivity.
Qed.

Lemma line_text_length (item : CartLine) (rest : string) :
  (4 + String.length rest <= String.length (line_text_onto item rest))%nat.
Proof.
  unfold line_text_onto, quote_string. cbv zeta.
  repeat (rewrite length_append || cbn [String.length]). lia.
Qed.

Lemma lines_text_length (c : Cart) (rest : string) :
  (4 * List.length c + String.length rest <=
   String.length (lines_text_onto c rest))%nat.
Proof.
  induction c as [|item c IH]; [cbn; lia|].
  rewrite lines_text_onto_cons.
  pose proof (line_text_length item
                match c with
                | [] => rest
                | _ :: _ => String "," (lines_text_onto c rest)
                end) as H.
  destruct c as [|item' c]; cbn [List.length String.length] in *; lia.
Qed.

Lemma parse_stringify_cart (c : Cart) :
  JSON_parse (JSON_stringify (value_of_cart c)) =
  Some (value_of_cart (map line_read_back c)).
Proof.
  destruct c as [|item c]; [reflexivity|].
  unfold value_of_cart, JSON_parse.
  rewrite stringify_array, lines_text_onto_eq.
  pose proof (lines_text_length (item :: c) "]") as Hlen.
  cbn [List.length String.length] in Hlen.
  replace (2 * String.length (String "[" (lines_text_onto (item :: c) "]")) + 2)%nat
    with (S (2 * String.length (String "[" (lines_text_onto (item :: c) "]")) + 1))
    by lia.
  rewrite lines_text_onto_cons at 2.
  rewrite parse_value_array, <- lines_text_onto_cons.
  rewrite parse_elements_lines by (cbn [String.length]; lia).
  reflexivity.
Qed.

Lemma Number_to_Z_of_Z (z : Z) : Number_to_Z (Number_of_Z z) = Some z.
Proof.
  unfold Number_to_Z, Number_of_Z. cbn.
  destruct (Z.ltb_spec z 0); f_equal; lia.
Qed.

Lemma cart_of_value_of_cart (c : Cart) :
  Forall finite_price c ->
  cart_of_value (value_of_cart c) = Some c.
Proof.
  unfold cart_of_value, value_of_cart.
  intros Hfinite. induction Hfinite as [|item c [n Hn] _ IH];
    [reflexivity|].
  cbn [map lines_of_values]. rewrite IH.
  unfold value_of_line, line_of_value.
  rewrite !Number_to_Z_of_Z. destruct item as [i t p img q].
  cbn [price] in Hn. subst p. reflexivity.
Qed.

Lemma read_back_finite (c : Cart) :
  Forall finite_price c -> Forall finite_price (map line_read_back c).
Proof.
  intros Hfinite. induction Hfinite as [|item c [n Hn] _ IH];
    cbn [map]; constructor; [|exact IH].
  exists (Number_read_back n). unfold line_read_back. cbn [price].
  rewrite Hn. reflexivity.
Qed.

Lemma Number_read_back_twice (n : Number) :
  Number_read_back (Number_read_back n) = Number_read_back n.
Proof.
  destruct n as [[|] d]; unfold Number_read_back; cbn [negative magnitude andb];
    [|reflexivity].
  destruct (Decimal_is_zero d) eqn:E; cbn [negative magnitude andb];
    [reflexivity|]. rewrite E. reflexivity.
Qed.

Lemma read_back_plain (c : Cart) :
  Forall plain_price c -> map line_read_back c = c.
Proof.
  intros Hplain. induction Hplain as [|item c (n & Hn & Hsame) _ IH];
    [reflexivity|].
  cbn [map]. rewrite IH. f_equal.
  destruct item as [i t p img q]. cbn [price] in Hn. subst p.
  unfold line_read_back. cbn. rewrite Hsame. reflexivity.
Qed.

Lemma plain_price_finite (c : Cart) :
  Forall plain_price c -> Forall finite_price c.
Proof.
  apply Forall_impl. intros item (n & Hn & _). exists n. exact Hn.
Qed.

(** A cart that was read back from a JSON text is read back as it is. *)
Lemma read_back_read_back (c : Cart) :
  Forall finite_price c -> Forall plain_price (map line_read_back c).
Proof.
  intros Hfinite. induction Hfinite as [|item c [n Hn] _ IH];
    cbn [map]; constructor; [|exact IH].
  exists (Number_read_back n). unfold line_read_back. cbn [price].
  rewrite Hn. split; [reflexivity | apply Number_read_back_twice].
Qed.

Local Open Scope list_scope.

(* ================================================================= *)
(** ** Loading and saving *)

Lemma lookup_store (key value : string) (entries : list (string * string)) :
  lookup key (store key value entries) = Some value.
Proof.
  induction entries as [|[k v] entries IH]; unfold store; fold store.
  - cbn. rewrite String.eqb_refl. reflexivity.
  - destruct (String.eqb k key) eqn:E; cbn.
    + rewrite String.eqb_refl. reflexivity.
    + rewrite E. exact IH.
Qed.

Lemma loadCart_run (w : World) :
  loadCart w =
  match lookup "vyndetta_cart" (localStorage w) with
  | None => Normal tt w
  | Some text =>
      if String.eqb text "" then Normal tt w
      else
        match JSON_parse text with
        | None => Throw SyntaxError w
        | Some v =>
            match cart_of_value v with
            | Some c =>
                Normal tt (mkWorld c (localStorage w) (notifications w)
                             (cartOpen w))
            | None =>
                Untyped v (localStorage w) (notifications w) (cartOpen w)
            end
        end
  end.
Proof.
  unfold loadCart, bind, getItem.
  destruct (lookup "vyndetta_cart" (localStorage w)) as [[|a text]|];
    [reflexivity | | reflexivity].
  cbn [String.eqb].
  destruct (JSON_parse (String a text)) as [v|]; [|reflexivity].
  destruct (cart_of_value v) as [c|]; reflexivity.
Qed.

(** C1, as the code has it.  When no value is stored under the key, or
    the stored value is the empty string, [loadCart] completes and leaves
    the world, and with it the cart in memory, as it was.  When the
    stored text parses to a cart, [loadCart] completes with that cart in
    memory.  When the stored text is not a JSON text, [loadCart] does not
    complete: the [SyntaxError] of [JSON.parse] leaves it, with the cart
    in memory as it was. *)
Theorem loadCart_cases (w : World) :
  (lookup "vyndetta_cart" (localStorage w) = None \/
   lookup "vyndetta_cart" (localStorage w) = Some "" ->
   loadCart w = Normal tt w) /\
  (forall text,
      lookup "vyndetta_cart" (localStorage w) = Some text ->
      text <> "" ->
      (JSON_parse text = None -> loadCart w = Throw SyntaxError w) /\
      (forall v c,
          JSON_parse text = Some v -> cart_of_value v = Some c ->
          loadCart w =
          Normal tt (mkWorld c (localStorage w) (notifications w)
                       (cartOpen w)))).
Proof.
  rewrite loadCart_run. split.
  - intros [-> | ->]; reflexivity.
  - intros text -> Htext.
    apply String.eqb_neq in Htext. rewrite Htext. split.
    + intros ->. reflexivity.
    + intros v c -> ->. reflexivity.
Qed.

Lemma loadCart_cases_witness :
  loadCart empty_world = Normal tt empty_world /\
  loadCart broken_world = Throw SyntaxError broken_world /\
  loadCart saved_world =
  Normal tt (mkWorld [sample_line] (persisted [sample_line] []) [] false).
Proof.
  split; [|split].
  - apply (proj1 (loadCart_cases empty_world)). left. reflexivity.
  - destruct (proj2 (loadCart_cases broken_world) "undefined")
      as [Hbroken _]; [reflexivity | discriminate |].
    apply Hbroken. vm_compute. reflexivity.
  - destruct (proj2 (loadCart_cases saved_world)
                (JSON_stringify (value_of_cart [sample_line])))
      as [_ Hsaved]; [reflexivity | vm_compute; discriminate |].
    apply (Hsaved (value_of_cart [sample_line]) [sample_line]);
      vm_compute; reflexivity.
Defined.

(** C1, as stated, fails: with a stored value that is not a JSON text,
    [loadCart] ends by an exception and not with an empty cart. *)
Lemma loadCart_throws_on_malformed_data :
  lookup "vyndetta_cart" (localStorage broken_world) = Some "undefined" /\
  JSON_parse "undefined" = None /\
  loadCart broken_world = Throw SyntaxError broken_world /\
  ~ (exists w', loadCart broken_world = Normal tt w').
Proof.
  assert (Hrun : loadCart broken_world = Throw SyntaxError broken_world)
    by (vm_compute; reflexivity).
  split; [reflexivity|]. split; [vm_compute; reflexivity|].
  split; [exact Hrun|].
  intros [w' Hw']. rewrite Hrun in Hw'. discriminate.
Qed.

(** What [loadCart] makes of the storage that [saveCart] leaves for a
    cart of finite prices. *)
Lemma loadCart_persisted_read_back (c c0 : Cart)
    (entries : list (string * string)) (shown : list string) (open : bool) :
  Forall finite_price c ->
  loadCart (mkWorld c0 (persisted c entries) shown open) =
  Normal tt (mkWorld (map line_read_back c) (persisted c entries) shown open).
Proof.
  intros Hfinite.
  rewrite loadCart_run. cbn [localStorage cart notifications cartOpen].
  unfold persisted. rewrite lookup_store.
  rewrite parse_stringify_cart, cart_of_value_of_cart
    by (apply read_back_finite; exact Hfinite).
  unfold value_of_cart. rewrite stringify_array. reflexivity.
Qed.

(** C7, as the code has it.  For a cart whose prices are all finite
    numbers, [saveCart] completes, and [loadCart] in a fresh world over
    the storage that it leaves (nothing in the cart yet, whatever the
    notifications and the panel) completes with the lines that were
    saved, in the same order, with the same id, title, image and
    quantity and the same price, a price of negative zero being read
    back as zero: when no price is the negative zero, the cart that is
    loaded is the cart that was saved. *)
Theorem saveCart_loadCart_round_trip (w : World) (shown : list string)
    (open : bool) :
  Forall finite_price (cart w) ->
  exists w1 w2,
    saveCart w = Normal tt w1 /\
    cart w1 = cart w /\
    loadCart (mkWorld [] (localStorage w1) shown open) = Normal tt w2 /\
    cart w2 = map line_read_back (cart w) /\
    (Forall plain_price (cart w) -> cart w2 = cart w).
Proof.
  intros Hfinite. rewrite saveCart_run. eexists. eexists.
  split; [reflexivity|]. split; [reflexivity|].
  cbn [localStorage cart notifications cartOpen].
  rewrite loadCart_persisted_read_back by exact Hfinite.
  split; [reflexivity|]. split; [reflexivity|].
  intros Hplain. cbn [cart]. apply read_back_plain. exact Hplain.
Qed.

Lemma saveCart_loadCart_round_trip_witness :
  (Forall plain_price (cart sample_world) /\
   exists w1 w2,
     saveCart sample_world = Normal tt w1 /\
     loadCart (mkWorld [] (localStorage w1) [] false) = Normal tt w2 /\
     cart w2 = [sample_line]) /\
  (Forall finite_price (cart minus_zero_world) /\
   exists w1 w2,
     saveCart minus_zero_world = Normal tt w1 /\
     loadCart (mkWorld [] (localStorage w1) [] false) = Normal tt w2 /\
     cart w2 =
     [mkCartLine 1 "A" (Finite (mkNumber false (mkDecimal 0 FZero)))
        "a.png" 1]).
Proof.
  assert (Hplain : Forall plain_price (cart sample_world)).
  { constructor; [|constructor]. eexists. split; reflexivity. }
  assert (Hfinite : Forall finite_price (cart minus_zero_world)).
  { constructor; [|constructor]. eexists. reflexivity. }
  split.
  - split; [exact Hplain|].
    destruct (saveCart_loadCart_round_trip sample_world [] false
                (plain_price_finite _ Hplain))
      as (w1 & w2 & Hsave & _ & Hload & _ & Hsame).
    exists w1, w2. split; [exact Hsave|]. split; [exact Hload|].
    apply Hsame. exact Hplain.
  - split; [exact Hfinite|].
    destruct (saveCart_loadCart_round_trip minus_zero_world [] false Hfinite)
      as (w1 & w2 & Hsave & _ & Hload & Hback & _).
    exists w1, w2. split; [exact Hsave|]. split; [exact Hload|].
    exact Hback.
Defined.

(** C7, as stated, fails: a cart line whose price is [NaN] is saved
    with the price [null], and [loadCart] over that storage does not
    complete with the cart that was saved: the price that comes back is
    [null] and no number. *)
Lemma saveCart_loadCart_loses_NaN :
  saveCart nan_world =
  Normal tt (mkWorld [nan_line] (persisted [nan_line] []) [] false) /\
  persisted [nan_line] [] =
  [("vyndetta_cart",
    JSON_stringify
      (JArr [JObj [("id", JNum (Number_of_Z 1)); ("title", JStr "A");
                   ("price", JNull); ("image", JStr "a.png");
                   ("quantity", JNum (Number_of_Z 1))]]))] /\
  loadCart (mkWorld [] (persisted [nan_line] []) [] false) =
  Untyped
    (JArr [JObj [("id", JNum (Number_of_Z 1)); ("title", JStr "A");
                 ("price", JNull); ("image", JStr "a.png");
                 ("quantity", JNum (Number_of_Z 1))]])
    (persisted [nan_line] []) [] false /\
  ~ (exists w2,
        loadCart (mkWorld [] (persisted [nan_line] []) [] false) =
        Normal tt w2 /\
        cart w2 = cart nan_world).
Proof.
  assert (Hrun : loadCart (mkWorld [] (persisted [nan_line] []) [] false) =
                 Untyped
                   (JArr [JObj [("id", JNum (Number_of_Z 1));
                                ("title", JStr "A"); ("price", JNull);
                                ("image", JStr "a.png");
                                ("quantity", JNum (Number_of_Z 1))]])
                   (persisted [nan_line] []) [] false)
    by (vm_compute; reflexivity).
  split; [vm_compute; reflexivity|]. split; [reflexivity|].
  split; [exact Hrun|].
  intros (w2 & Hw2 & _). rewrite Hrun in Hw2. discriminate.
Qed.

(* ================================================================= *)
(** ** The cart across page loads *)

Local Open Scope Z_scope.
Local Open Scope list_scope.

Lemma lookup_store_other (key k value : string)
    (entries : list (string * string)) :
  key <> k -> lookup key (store k value entries) = lookup key entries.
Proof.
  intros Hneq. induction entries as [|[k' v'] entries IH];
    unfold store; fold store.
  - cbn. destruct (String.eqb_spec k key); [congruence | reflexivity].
  - destruct (String.eqb_spec k' k) as [->|Hk]; cbn.
    + destruct (String.eqb_spec k key); [congruence | reflexivity].
    + destruct (String.eqb k' key); [reflexivity | exact IH].
Qed.

Lemma store_store (k value value' : string)
    (entries : list (string * string)) :
  store k value (store k value' entries) = store k value entries.
Proof.
  induction entries as [|[k' v'] entries IH]; unfold store; fold store.
  - rewrite String.eqb_refl. reflexivity.
  - destruct (String.eqb k' k) eqn:E; unfold store; fold store.
    + rewrite String.eqb_refl. reflexivity.
    + rewrite E, IH. reflexivity.
Qed.

Lemma loadCart_persisted (c c0 : Cart) (entries : list (string * string))
    (shown : list string) (open : bool) :
  Forall plain_price c ->
  loadCart (mkWorld c0 (persisted c entries) shown open) =
  Normal tt (mkWorld c (persisted c entries) shown open).
Proof.
  intros Hplain.
  rewrite loadCart_persisted_read_back
    by (apply plain_price_finite; exact Hplain).
  rewrite read_back_plain by exact Hplain. reflexivity.
Qed.

Lemma finite_price_dec (c : Cart) :
  {Forall finite_price c} + {~ Forall finite_price c}.
Proof.
  apply Forall_dec. intros item. unfold finite_price.
  destruct (price item) as [n| |minus].
  - left. exists n. reflexivity.
  - right. intros [n Hn]. discriminate.
  - right. intros [n Hn]. discriminate.
Qed.

(** A cart with a price that is [NaN] or an infinity is written with
    the price [null], which is no cart line. *)
Lemma cart_of_value_not_finite (c : Cart) :
  ~ Forall finite_price c -> cart_of_value (value_of_cart c) = None.
Proof.
  unfold cart_of_value, value_of_cart.
  induction c as [|item c IH]; intros Hnot.
  - exfalso. apply Hnot. constructor.
  - cbn [map lines_of_values].
    destruct item as [i t p img q]. destruct p as [n| |minus];
      try reflexivity.
    rewrite IH.
    + destruct (line_of_value _); reflexivity.
    + intros Hc. apply Hnot. constructor; [exists n; reflexivity | exact Hc].
Qed.

Lemma read_back_not_finite (c : Cart) :
  ~ Forall finite_price c -> ~ Forall finite_price (map line_read_back c).
Proof.
  intros Hnot Hall. apply Hnot. clear Hnot.
  induction c as [|item c IH]; [constructor|].
  cbn [map] in Hall. inversion Hall as [|x l [n Hn] Hrest]; subst.
  constructor; [|apply IH; exact Hrest].
  unfold line_read_back in Hn. cbn [price] in Hn.
  destruct (price item) as [m| |minus] eqn:E; try discriminate.
  exists m. exact E.
Qed.

Lemma loadCart_persisted_not_finite (c c0 : Cart)
    (entries : list (string * string)) (shown : list string) (open : bool) :
  ~ Forall finite_price c ->
  loadCart (mkWorld c0 (persisted c entries) shown open) =
  Untyped (value_of_cart (map line_read_back c)) (persisted c entries)
    shown open.
Proof.
  intros Hnot.
  rewrite loadCart_run. cbn [localStorage cart notifications cartOpen].
  unfold persisted. rewrite lookup_store.
  rewrite parse_stringify_cart, cart_of_value_not_finite
    by (apply read_back_not_finite; exact Hnot).
  unfold value_of_cart. rewrite stringify_array. reflexivity.
Qed.

Lemma map_read_back_same (c : Cart) :
  Forall finite_price c -> map line_read_back c = c -> Forall plain_price c.
Proof.
  intros Hfinite. induction Hfinite as [|item c [n Hn] _ IH]; intros Hsame;
    [constructor|].
  cbn [map] in Hsame. injection Hsame as Hitem Hrest.
  constructor; [|apply IH; exact Hrest].
  exists n. split; [exact Hn|].
  destruct item as [i t p img q]. cbn [price] in Hn. subst p.
  unfold line_read_back in Hitem.
  cbn [price id title image quantity] in Hitem.
  injection Hitem as Hn. exact Hn.
Qed.

(** The storage that [saveCart] leaves for a cart is loaded as that very
    cart exactly when every price is a finite number other than the
    negative zero. *)
Lemma loadCart_persisted_iff (c c0 : Cart) (entries : list (string * string))
    (shown : list string) (open : bool) :
  loadCart (mkWorld c0 (persisted c entries) shown open) =
  Normal tt (mkWorld c (persisted c entries) shown open) <->
  Forall plain_price c.
Proof.
  split; [|apply loadCart_persisted].
  intros Hload. destruct (finite_price_dec c) as [Hfinite|Hnot].
  - rewrite loadCart_persisted_read_back in Hload by exact Hfinite.
    injection Hload as Hsame. apply map_read_back_same; assumption.
  - rewrite loadCart_persisted_not_finite in Hload by exact Hnot.
    discriminate.
Qed.

Lemma reload_persisted_iff (c c0 : Cart) (entries : list (string * string))
    (shown : list string) (open : bool) :
  reload (mkWorld c0 (persisted c entries) shown open) =
  Normal tt (mkWorld c (persisted c entries) [] false) <->
  Forall plain_price c.
Proof. apply (loadCart_persisted_iff c [] entries [] false). Qed.

(** X1.  What [addToCart] and [removeFromCart] leave in [localStorage]
    is the text of the cart they leave in memory: a page load over that
    storage completes with exactly that cart if and only if every price
    in it is a finite number other than the negative zero.  The same
    holds after an [updateQuantity] that found a line with the id; after
    one that found none, a page load gives the cart in memory when it
    did before the call. *)
Theorem mutations_survive_reload (w : World) :
  (forall product,
      exists w',
        addToCart product w = Normal tt w' /\
        (reload w' = Normal tt (mkWorld (cart w') (localStorage w') [] false)
         <-> Forall plain_price (cart w'))) /\
  (forall productId,
      exists w',
        removeFromCart productId w = Normal tt w' /\
        (reload w' = Normal tt (mkWorld (cart w') (localStorage w') [] false)
         <-> Forall plain_price (cart w'))) /\
  (forall productId change,
      reload w = Normal tt (mkWorld (cart w) (localStorage w) [] false) ->
      exists w',
        updateQuantity productId change w = Normal tt w' /\
        (Forall plain_price (cart w') ->
         reload w' =
         Normal tt (mkWorld (cart w') (localStorage w') [] false))) /\
  (forall productId change item,
      In item (cart w) -> id item = productId ->
      exists w',
        updateQuantity productId change w = Normal tt w' /\
        (reload w' = Normal tt (mkWorld (cart w') (localStorage w') [] false)
         <-> Forall plain_price (cart w'))).
Proof.
  assert (Hfound : forall productId change found,
             find (fun item => id item =? productId) (cart w) = Some found ->
             exists w',
               updateQuantity productId change w = Normal tt w' /\
               (reload w' =
                Normal tt (mkWorld (cart w') (localStorage w') [] false)
                <-> Forall plain_price (cart w'))).
  { intros productId change found Hfind.
    rewrite updateQuantity_run, Hfind. cbv zeta.
    destruct (quantity found + change <=? 0).
    - rewrite removeFromCart_run. eexists. split; [reflexivity|].
      apply reload_persisted_iff.
    - eexists. split; [reflexivity|]. apply reload_persisted_iff. }
  split; [|split; [|split]].
  - intros product. rewrite addToCart_run.
    destruct (find _ (cart w)); eexists; (split; [reflexivity|]);
      apply reload_persisted_iff.
  - intros productId. rewrite removeFromCart_run.
    eexists. split; [reflexivity|]. apply reload_persisted_iff.
  - intros productId change Hsync.
    destruct (find (fun item => id item =? productId) (cart w))
      as [found|] eqn:Hfind.
    + destruct (Hfound productId change found Hfind) as (w' & Hrun & Hiff).
      exists w'. split; [exact Hrun | apply Hiff].
    + exists w. rewrite updateQuantity_run, Hfind. split; [reflexivity|].
      intros _. exact Hsync.
  - intros productId change item Hin Hid.
    destruct (find_some_of_In _ _ _ Hin Hid) as [found Hfind].
    apply (Hfound productId change found Hfind).
Qed.

Lemma mutations_survive_reload_witness :
  (exists w',
      updateQuantity 2 1 synced_world = Normal tt w' /\
      reload w' = Normal tt (mkWorld (cart w') (localStorage w') [] false)) /\
  (exists w',
      updateQuantity 1 3 sample_world = Normal tt w' /\
      reload w' = Normal tt (mkWorld (cart w') (localStorage w') [] false)).
Proof.
  destruct (mutations_survive_reload synced_world) as (_ & _ & Hsync & _).
  destruct (mutations_survive_reload sample_world) as (_ & _ & _ & Hfound).
  split.
  - destruct (Hsync 2 1) as (w' & Hrun & Hload); [vm_compute; reflexivity|].
    exists w'. split; [exact Hrun|]. apply Hload.
    vm_compute in Hrun. injection Hrun as <-.
    constructor; [|constructor]. eexists. split; reflexivity.
  - destruct (Hfound 1 3 sample_line) as (w' & Hrun & Hload);
      [left; reflexivity | reflexivity |].
    exists w'. split; [exact Hrun|]. apply Hload.
    vm_compute in Hrun. injection Hrun as <-.
    constructor; [|constructor]. eexists. split; reflexivity.
Defined.

(** X2.  The cart functions write one key of [localStorage]: whatever is
    stored under any other key is still there, unchanged, after
    [saveCart], [addToCart], [removeFromCart], [updateQuantity] and
    [loadCart]. *)
Theorem cart_functions_write_one_key (key : string) (w : World) :
  key <> "vyndetta_cart"%string ->
  (exists w',
      saveCart w = Normal tt w' /\
      lookup key (localStorage w') = lookup key (localStorage w)) /\
  (forall product,
      exists w',
        addToCart product w = Normal tt w' /\
        lookup key (localStorage w') = lookup key (localStorage w)) /\
  (forall productId,
      exists w',
        removeFromCart productId w = Normal tt w' /\
        lookup key (localStorage w') = lookup key (localStorage w)) /\
  (forall productId change,
      exists w',
        updateQuantity productId change w = Normal tt w' /\
        lookup key (localStorage w') = lookup key (localStorage w)) /\
  match loadCart w with
  | Normal _ w' | Throw _ w' => localStorage w' = localStorage w
  | Untyped _ entries _ _ => entries = localStorage w
  end.
Proof.
  intros Hkey.
  assert (Hother : forall c,
             lookup key (persisted c (localStorage w)) =
             lookup key (localStorage w))
    by (intros c; apply lookup_store_other; exact Hkey).
  split; [|split; [|split; [|split]]].
  - rewrite saveCart_run. eexists. split; [reflexivity | apply Hother].
  - intros product. rewrite addToCart_run.
    destruct (find _ (cart w)); eexists; (split; [reflexivity | apply Hother]).
  - intros productId. rewrite removeFromCart_run.
    eexists. split; [reflexivity | apply Hother].
  - intros productId change. rewrite updateQuantity_run.
    destruct (find _ (cart w)) as [found|]; [|exists w; split; reflexivity].
    cbv zeta. destruct (quantity found + change <=? 0).
    + rewrite removeFromCart_run. eexists. split; [reflexivity | apply Hother].
    + eexists. split; [reflexivity | apply Hother].
  - rewrite loadCart_run.
    destruct (lookup "vyndetta_cart" (localStorage w)) as [text|];
      [|reflexivity].
    destruct (String.eqb text ""); [reflexivity|].
    destruct (JSON_parse text) as [v|]; [|reflexivity].
    destruct (cart_of_value v); reflexivity.
Qed.

Lemma cart_functions_write_one_key_witness :
  exists w',
    addToCart sample_product
      (mkWorld [] [("theme", "dark")] [] false) = Normal tt w' /\
    lookup "theme" (localStorage w') = Some "dark"%string.
Proof.
  destruct (cart_functions_write_one_key "theme"
              (mkWorld [] [("theme", "dark")] [] false)) as (_ & Hadd & _).
  - discriminate.
  - destruct (Hadd sample_product) as (w' & Hrun & Hkey).
    exists w'. split; [exact Hrun | exact Hkey].
Defined.

(* ================================================================= *)
(** ** How the operations compose *)

Lemma filter_app_line productId (c : Cart) (line : CartLine) :
  (forall item, In item c -> id item <> productId) ->
  id line = productId ->
  filter (fun item => negb (id item =? productId)) (c ++ [line]) = c.
Proof.
  intros Habsent Hid. rewrite filter_app, (filter_absent _ _ Habsent).
  cbn. rewrite Hid, Z.eqb_refl. cbn. apply List.app_nil_r.
Qed.

(** X3.  Adding a product whose id the cart does not hold and then
    removing that id gives back the cart as it was. *)
Theorem addToCart_then_removeFromCart (product : Product) (w : World) :
  (forall item, In item (cart w) -> id item <> product_id product) ->
  exists w1 w2,
    addToCart product w = Normal tt w1 /\
    removeFromCart (product_id product) w1 = Normal tt w2 /\
    cart w2 = cart w.
Proof.
  intros Habsent. rewrite addToCart_run.
  rewrite (proj2 (find_none_iff _ _) Habsent). cbv zeta.
  eexists. eexists. split; [reflexivity|].
  rewrite removeFromCart_run. split; [reflexivity|]. cbn.
  apply filter_app_line; [exact Habsent | reflexivity].
Qed.

Lemma addToCart_then_removeFromCart_witness :
  exists w1 w2,
    addToCart other_product sample_world = Normal tt w1 /\
    removeFromCart 2 w1 = Normal tt w2 /\
    cart w2 = [sample_line].
Proof.
  apply (addToCart_then_removeFromCart other_product sample_world).
  intros item [<-|[]]. discriminate.
Defined.

Lemma with_quantity_added_back (change : Z) (line : CartLine) :
  with_quantity_added (- change) (with_quantity_added change line) = line.
Proof.
  destruct line. unfold with_quantity_added. cbn. f_equal. lia.
Qed.

Lemma updateQuantity_keeps (productId change : Z) (w : World)
    (before after : Cart) (found : CartLine) :
  cart w = before ++ found :: after ->
  (forall x, In x before -> id x <> productId) ->
  id found = productId ->
  0 < quantity found + change ->
  updateQuantity productId change w =
  let c := before ++ with_quantity_added change found :: after in
  Normal tt (mkWorld c (persisted c (localStorage w)) (notifications w)
               (cartOpen w)).
Proof.
  intros Heq Hbefore Hid Hq.
  rewrite updateQuantity_run, Heq, (split_find _ _ _ _ Hbefore Hid).
  cbv zeta. apply Z.leb_gt in Hq. rewrite Hq.
  rewrite (split_add_quantity _ _ _ _ _ Hbefore Hid). reflexivity.
Qed.

Lemma updateQuantity_drops (productId change : Z) (w : World)
    (before after : Cart) (found : CartLine) :
  cart w = before ++ found :: after ->
  (forall x, In x before -> id x <> productId) ->
  id found = productId ->
  quantity found + change <= 0 ->
  updateQuantity productId change w = removeFromCart productId w.
Proof.
  intros Heq Hbefore Hid Hq.
  assert (Hfind : find (fun item => id item =? productId) (cart w) =
                  Some found)
    by (rewrite Heq; apply split_find; assumption).
  rewrite updateQuantity_run, Hfind.
  cbv zeta. apply Z.leb_le in Hq. rewrite Hq.
  rewrite !removeFromCart_run. cbn. rewrite filter_add_quantity.
  reflexivity.
Qed.

Lemma updateQuantity_absent (productId change : Z) (w : World) :
  (forall item, In item (cart w) -> id item <> productId) ->
  updateQuantity productId change w = Normal tt w.
Proof.
  intros Habsent. rewrite updateQuantity_run.
  rewrite (proj2 (find_none_iff _ _) Habsent). reflexivity.
Qed.

(** X4.  A change of quantity that keeps the line is undone by the
    opposite change: when the first line with the id has a positive
    quantity before and after [updateQuantity(id, change)], then
    [updateQuantity(id, -change)] gives back the cart as it was. *)
Theorem updateQuantity_undo (productId change : Z) (w : World)
    (before after : Cart) (found : CartLine) :
  cart w = before ++ found :: after ->
  (forall x, In x before -> id x <> productId) ->
  id found = productId ->
  0 < quantity found ->
  0 < quantity found + change ->
  exists w1 w2,
    updateQuantity productId change w = Normal tt w1 /\
    updateQuantity productId (- change) w1 = Normal tt w2 /\
    cart w2 = cart w.
Proof.
  intros Heq Hbefore Hid Hq Hq'.
  rewrite (updateQuantity_keeps _ _ _ _ _ _ Heq Hbefore Hid Hq').
  cbv zeta. eexists. eexists. split; [reflexivity|].
  erewrite updateQuantity_keeps;
    [| reflexivity | exact Hbefore | exact Hid | cbn; lia].
  cbv zeta. split; [reflexivity|]. cbn [cart].
  rewrite with_quantity_added_back, Heq. reflexivity.
Qed.

Lemma updateQuantity_undo_witness :
  exists w1 w2,
    updateQuantity 1 4 sample_world = Normal tt w1 /\
    updateQuantity 1 (- 4) w1 = Normal tt w2 /\
    cart w2 = [sample_line].
Proof.
  apply (updateQuantity_undo 1 4 sample_world [] [] sample_line).
  - reflexivity.
  - intros x [].
  - reflexivity.
  - cbn. lia.
  - cbn. lia.
Defined.

(** X5.  Taking the whole quantity off a line removes every line of that
    id, and from then on [updateQuantity] on that id changes nothing,
    whatever the change. *)
Theorem updateQuantity_to_zero_then_absent (productId : Z) (w : World)
    (before after : Cart) (found : CartLine) :
  cart w = before ++ found :: after ->
  (forall x, In x before -> id x <> productId) ->
  id found = productId ->
  exists w1,
    updateQuantity productId (- quantity found) w = Normal tt w1 /\
    (forall line, In line (cart w1) -> id line <> productId) /\
    (forall line, id line <> productId -> In line (cart w) -> In line (cart w1)) /\
    forall change, updateQuantity productId change w1 = Normal tt w1.
Proof.
  intros Heq Hbefore Hid.
  rewrite (updateQuantity_drops _ _ _ _ _ _ Heq Hbefore Hid) by lia.
  rewrite removeFromCart_run. cbv zeta. eexists. split; [reflexivity|].
  cbn [cart].
  assert (Hgone : forall line,
             In line (filter (fun item => negb (id item =? productId))
                        (cart w)) -> id line <> productId)
    by (intros line Hin; apply filter_removes in Hin; tauto).
  split; [exact Hgone|]. split.
  - intros line Hline Hin. apply filter_removes. tauto.
  - intros change. apply updateQuantity_absent. exact Hgone.
Qed.

Lemma updateQuantity_to_zero_then_absent_witness :
  exists w1,
    updateQuantity 1 (- 1) sample_world = Normal tt w1 /\
    (forall line, In line (cart w1) -> id line <> 1) /\
    (forall line, id line <> 1 -> In line (cart sample_world) ->
                  In line (cart w1)) /\
    forall change, updateQuantity 1 change w1 = Normal tt w1.
Proof.
  apply (updateQuantity_to_zero_then_absent 1 sample_world [] [] sample_line).
  - reflexivity.
  - intros x [].
  - reflexivity.
Defined.

(** X6.  Removing an id twice is removing it once: the second
    [removeFromCart] leaves the cart and the storage as the first left
    them, and shows its message again. *)
Theorem removeFromCart_twice (productId : Z) (w : World) :
  exists w1 w2,
    removeFromCart productId w = Normal tt w1 /\
    removeFromCart productId w1 = Normal tt w2 /\
    cart w2 = cart w1 /\
    localStorage w2 = localStorage w1 /\
    notifications w2 = notifications w1 ++ ["Item removed from cart"%string].
Proof.
  rewrite removeFromCart_run. cbv zeta. eexists. eexists.
  split; [reflexivity|]. rewrite removeFromCart_run. cbv zeta.
  split; [reflexivity|]. cbn [cart localStorage notifications].
  assert (Hsame :
    filter (fun item => negb (id item =? productId))
      (filter (fun item => negb (id item =? productId)) (cart w)) =
    filter (fun item => negb (id item =? productId)) (cart w)).
  { apply filter_absent. intros item Hin.
    apply filter_removes in Hin. tauto. }
  rewrite Hsame. split; [reflexivity|]. split; [|reflexivity].
  unfold persisted. apply store_store.
Qed.

(** X7.  On an id that the cart holds, with quantities of at least 1,
    [addToCart] does to the cart and to the storage what
    [updateQuantity(id, 1)] does; the two differ in the message and the
    panel only. *)
Theorem addToCart_existing_is_updateQuantity_one (product : Product)
    (w : World) (item : CartLine) :
  Forall (fun line => 1 <= quantity line) (cart w) ->
  In item (cart w) -> id item = product_id product ->
  exists w1 w2,
    addToCart product w = Normal tt w1 /\
    updateQuantity (product_id product) 1 w = Normal tt w2 /\
    cart w1 = cart w2 /\
    localStorage w1 = localStorage w2 /\
    notifications w1 =
    notifications w2 ++ ["Quantity updated in cart!"%string] /\
    cartOpen w1 = true /\ cartOpen w2 = cartOpen w.
Proof.
  intros Hq Hin Hid.
  destruct (find_some_of_In _ _ _ Hin Hid) as [found Hfind].
  destruct (find_some_split _ _ _ Hfind)
    as (before & after & Heq & Hbefore & Hfid & Hadd).
  assert (Hfound : 1 <= quantity found).
  { rewrite Forall_forall in Hq. apply Hq. rewrite Heq.
    apply in_or_app. right. left. reflexivity. }
  rewrite addToCart_run, Hfind. cbv zeta.
  rewrite (updateQuantity_keeps _ 1 _ _ _ _ Heq Hbefore Hfid) by lia.
  cbv zeta. eexists. eexists. split; [reflexivity|]. split; [reflexivity|].
  cbn [cart localStorage notifications cartOpen]. rewrite Hadd.
  repeat split.
Qed.

Lemma addToCart_existing_is_updateQuantity_one_witness :
  exists w1 w2,
    addToCart sample_product sample_world = Normal tt w1 /\
    updateQuantity 1 1 sample_world = Normal tt w2 /\
    cart w1 = cart w2 /\
    localStorage w1 = localStorage w2 /\
    notifications w1 =
    notifications w2 ++ ["Quantity updated in cart!"%string] /\
    cartOpen w1 = true /\ cartOpen w2 = cartOpen sample_world.
Proof.
  apply (addToCart_existing_is_updateQuantity_one
           sample_product sample_world sample_line).
  - repeat constructor. cbn. lia.
  - left. reflexivity.
  - reflexivity.
Defined.

(* ================================================================= *)
(** ** How the totals move *)

Lemma calculateTotal_sum (w : World) :
  exists total,
    calculateTotal w = Normal total w /\
    Amount_eq total (sum_of_line_totals (cart w)).
Proof.
  eexists. split; [reflexivity|]. rewrite fold_left_line_totals.
  apply Amount_add_0_l.
Qed.

(** X8.  [addToCart] raises the count of items by 1.  When the cart did
    not hold the id of the product, the line of the product comes after
    the lines that were there, and the total afterwards is what the code
    gets by adding the price of the product, times 1, to the total
    before.  When the cart held the id, nothing but the id of the
    incoming product is looked at: every product with that id, whatever
    its title, price and image, leaves the same cart, storage and
    messages, and so the same total. *)
Theorem addToCart_raises_totals (product : Product) (w : World) :
  exists w' total total',
    addToCart product w = Normal tt w' /\
    getTotalItems w' = Normal (sum_of_quantities (cart w) + 1) w' /\
    calculateTotal w = Normal total w /\
    calculateTotal w' = Normal total' w' /\
    ((forall item, In item (cart w) -> id item <> product_id product) ->
     cart w' = cart w ++ [line_of_product product] /\
     total' =
     Amount_add total
       (Amount_times (JsNumber_to_Amount (product_price product)) 1)) /\
    (forall item other,
        In item (cart w) -> id item = product_id product ->
        product_id other = product_id product ->
        addToCart other w = Normal tt w').
Proof.
  destruct (addToCart_counts product w) as (w' & Hrun & Hcount & _).
  exists w'. eexists. eexists. split; [exact Hrun|].
  split; [rewrite getTotalItems_run, Hcount; reflexivity|].
  split; [reflexivity|]. split; [reflexivity|].
  rewrite addToCart_run in Hrun. split.
  - intros Habsent.
    rewrite (proj2 (find_none_iff _ _) Habsent) in Hrun.
    injection Hrun as <-. cbn [cart]. split; [reflexivity|].
    rewrite fold_left_app. reflexivity.
  - intros item other Hin Hid Hother.
    destruct (find_some_of_In _ _ _ Hin Hid) as [found Hfind].
    rewrite Hfind in Hrun. rewrite addToCart_run, Hother, Hfind.
    exact Hrun.
Qed.

Lemma addToCart_raises_totals_witness :
  (exists w' total total',
      addToCart other_product sample_world = Normal tt w' /\
      calculateTotal sample_world = Normal total sample_world /\
      calculateTotal w' = Normal total' w' /\
      cart w' = cart sample_world ++ [line_of_product other_product] /\
      total' =
      Amount_add total
        (Amount_times (JsNumber_to_Amount (product_price other_product)) 1)) /\
  (exists w',
      addToCart sample_product sample_world = Normal tt w' /\
      addToCart
        (mkProduct 1 "B" (JsNumber_of_Decimal (mkDecimal 99 FZero)) "b.png")
        sample_world = Normal tt w').
Proof.
  split.
  - destruct (addToCart_raises_totals other_product sample_world)
      as (w' & total & total' & Hrun & _ & Htotal & Htotal' & Habsent & _).
    exists w', total, total'. split; [exact Hrun|].
    split; [exact Htotal|]. split; [exact Htotal'|].
    apply Habsent. intros item [<-|[]]. discriminate.
  - destruct (addToCart_raises_totals sample_product sample_world)
      as (w' & _ & _ & Hrun & _ & _ & _ & _ & Hpresent).
    exists w'. split; [exact Hrun|].
    apply (Hpresent sample_line); [left; reflexivity | reflexivity..].
Defined.

Lemma unique_id_split (c : Cart) (item : CartLine) :
  NoDup (map id c) -> In item c ->
  exists before after,
    c = before ++ item :: after /\
    filter (fun line => negb (id line =? id item)) c = before ++ after.
Proof.
  intros Hnodup Hin. destruct (in_split _ _ Hin) as (before & after & ->).
  exists before, after. split; [reflexivity|].
  rewrite map_app in Hnodup. cbn [map] in Hnodup.
  pose proof (NoDup_remove_2 _ _ _ Hnodup) as Hnotin.
  rewrite filter_app. cbn [filter]. rewrite Z.eqb_refl. cbn [negb].
  rewrite !filter_absent; [reflexivity | |].
  - intros line Hline Heq. apply Hnotin. apply in_or_app. right.
    rewrite <- Heq. apply in_map. exact Hline.
  - intros line Hline Heq. apply Hnotin. apply in_or_app. left.
    rewrite <- Heq. apply in_map. exact Hline.
Qed.

(** X9.  In a cart with unique ids, [removeFromCart] of the id of a line
    takes exactly that line out: the other lines stay as they are and in
    their order, and the count of items goes down by the quantity of the
    line. *)
Theorem removeFromCart_takes_one_line (w : World) (item : CartLine) :
  NoDup (map id (cart w)) -> In item (cart w) ->
  exists w' before after,
    removeFromCart (id item) w = Normal tt w' /\
    cart w = before ++ item :: after /\
    cart w' = before ++ after /\
    getTotalItems w' =
    Normal (sum_of_quantities (cart w) - quantity item) w'.
Proof.
  intros Hnodup Hin.
  destruct (unique_id_split _ _ Hnodup Hin)
    as (before & after & Heq & Hfilter).
  rewrite removeFromCart_run. cbv zeta. rewrite Hfilter.
  eexists. exists before, after.
  split; [reflexivity|]. split; [exact Heq|]. split; [reflexivity|].
  rewrite getTotalItems_run. cbn [cart].
  rewrite Heq, !sum_of_quantities_app. cbn [sum_of_quantities].
  f_equal. lia.
Qed.

Lemma removeFromCart_takes_one_line_witness :
  exists w' before after,
    removeFromCart (id sample_line) sample_world = Normal tt w' /\
    cart sample_world = before ++ sample_line :: after /\
    cart w' = before ++ after /\
    getTotalItems w' =
    Normal (sum_of_quantities (cart sample_world) - quantity sample_line) w'.
Proof.
  apply (removeFromCart_takes_one_line sample_world sample_line).
  - repeat constructor. intros [].
  - left. reflexivity.
Defined.

Lemma addAll_appends (products : list Product) :
  forall w,
    NoDup (map id (cart w) ++ map product_id products) ->
    exists w',
      addAll products w = Normal tt w' /\
      cart w' = cart w ++ map line_of_product products.
Proof.
  induction products as [|p products IH]; intros w Hnodup.
  - exists w. split; [reflexivity|]. cbn. rewrite List.app_nil_r.
    reflexivity.
  - cbn [map] in Hnodup.
    assert (Hfresh : forall item, In item (cart w) -> id item <> product_id p).
    { intros item Hin Heq. apply NoDup_remove_2 in Hnodup. apply Hnodup.
      apply in_or_app. left. rewrite <- Heq. apply in_map. exact Hin. }
    cbn [addAll]. unfold bind. rewrite addToCart_run.
    rewrite (proj2 (find_none_iff _ _) Hfresh). cbv beta iota zeta.
    match goal with
    | |- exists w', addAll _ ?w1 = _ /\ _ => destruct (IH w1) as (w' & Hrun & Hcart)
    end.
    + cbn [cart]. rewrite map_app, <- List.app_assoc. exact Hnodup.
    + exists w'. split; [exact Hrun|]. rewrite Hcart. cbn [cart map].
      rewrite <- List.app_assoc. reflexivity.
Qed.

Lemma Amount_times_1 (a : Amount) : Amount_eq (Amount_times a 1) a.
Proof.
  destruct a as [q| |minus]; cbn [Amount_times Amount_eq];
    [|exact I | reflexivity].
  change (inject_Z 1) with 1%Q. ring.
Qed.

Lemma sum_of_line_totals_products (products : list Product) :
  Amount_eq (sum_of_line_totals (map line_of_product products))
    (sum_of_prices products).
Proof.
  induction products as [|p products IH];
    cbn [map sum_of_line_totals sum_of_prices line_of_product price quantity].
  - reflexivity.
  - rewrite IH, Amount_times_1. reflexivity.
Qed.

(** X10.  Products with distinct ids, added one after the other to the
    empty cart, are the lines of the cart, in the order of the calls,
    each with quantity 1 and the title, price and image it came with;
    the total is the sum of their prices. *)
Theorem addAll_distinct_lines (products : list Product) entries shown open :
  NoDup (map product_id products) ->
  exists w' total,
    addAll products (mkWorld [] entries shown open) = Normal tt w' /\
    cart w' = map line_of_product products /\
    calculateTotal w' = Normal total w' /\
    Amount_eq total (sum_of_prices products).
Proof.
  intros Hnodup.
  destruct (addAll_appends products (mkWorld [] entries shown open) Hnodup)
    as (w' & Hrun & Hcart).
  destruct (calculateTotal_sum w') as (total & Htotal & Hsum).
  exists w', total. split; [exact Hrun|]. split; [exact Hcart|].
  split; [exact Htotal|].
  rewrite Hsum, Hcart. apply sum_of_line_totals_products.
Qed.

Lemma addAll_distinct_lines_witness :
  exists w' total,
    addAll [sample_product; other_product] empty_world = Normal tt w' /\
    cart w' = [line_of_product sample_product; line_of_product other_product] /\
    calculateTotal w' = Normal total w' /\
    Amount_eq total (sum_of_prices [sample_product; other_product]).
Proof.
  apply (addAll_distinct_lines [sample_product; other_product] [] [] false).
  repeat constructor; cbn; intuition discriminate.
Defined.

Lemma sum_of_quantities_ge_length (c : Cart) :
  Forall (fun line => 1 <= quantity line) c ->
  Z.of_nat (List.length c) <= sum_of_quantities c.
Proof.
  intros Hq. induction Hq as [|line c Hline _ IH];
    cbn [List.length sum_of_quantities]; lia.
Qed.

Lemma Amount_add_nonneg (a b : Amount) :
  Amount_nonneg a -> Amount_nonneg b -> Amount_nonneg (Amount_add a b).
Proof.
  destruct a as [x| |s], b as [y| |s']; cbn [Amount_nonneg Amount_add];
    try tauto.
  - intros Hx Hy. apply (Qle_trans _ (0 + 0)); [discriminate|].
    apply Qplus_le_compat; assumption.
  - intros -> ->. reflexivity.
Qed.

Lemma Amount_times_nonneg (a : Amount) (z : Z) :
  Amount_nonneg a -> 1 <= z -> Amount_nonneg (Amount_times a z).
Proof.
  destruct a as [x| |s]; cbn [Amount_nonneg Amount_times]; [|tauto|].
  - intros Hx Hz. apply Qmult_le_0_compat; [exact Hx|].
    change 0%Q with (inject_Z 0). rewrite <- Zle_Qle. lia.
  - intros -> Hz. destruct z; [lia | reflexivity | lia].
Qed.

Lemma fold_left_line_totals_nonneg (c : Cart) :
  Forall (fun line => 1 <= quantity line) c ->
  Forall (fun line => Amount_nonneg (JsNumber_to_Amount (price line))) c ->
  forall start,
    Amount_nonneg start ->
    Amount_nonneg
      (fold_left
         (fun total item =>
            Amount_add total
              (Amount_times (JsNumber_to_Amount (price item))
                 (quantity item)))
         c start).
Proof.
  intros Hq. induction Hq as [|line c Hline _ IH]; intros Hp start Hstart;
    cbn [fold_left]; [exact Hstart|].
  inversion Hp as [|x l Hprice Hrest]; subst.
  apply IH; [exact Hrest|].
  apply Amount_add_nonneg; [exact Hstart|].
  apply Amount_times_nonneg; assumption.
Qed.

Lemma Amount_add_Undefined_r (a : Amount) : Amount_add a Undefined = Undefined.
Proof. destruct a; reflexivity. Qed.

Lemma fold_left_line_totals_Undefined (c : Cart) :
  fold_left
    (fun total item =>
       Amount_add total
         (Amount_times (JsNumber_to_Amount (price item)) (quantity item)))
    c Undefined = Undefined.
Proof. induction c as [|x c IH]; [reflexivity | exact IH]. Qed.

(** X11.  In a cart whose quantities are all at least 1 the count of
    items is at least the number of lines, and is 0 only for the empty
    cart.  When moreover no price is [NaN] or negative, the total is a
    number and is not negative.  A single price that is [NaN] makes the
    total [NaN], whatever the quantities. *)
Theorem totals_of_positive_quantities (w : World) :
  (Forall (fun line => 1 <= quantity line) (cart w) ->
   exists count total,
     getTotalItems w = Normal count w /\
     Z.of_nat (List.length (cart w)) <= count /\
     (count = 0 <-> cart w = []) /\
     calculateTotal w = Normal total w /\
     (Forall (fun line => Amount_nonneg (JsNumber_to_Amount (price line)))
        (cart w) ->
      Amount_nonneg total)) /\
  (forall item,
      In item (cart w) -> price item = NaN ->
      calculateTotal w = Normal Undefined w).
Proof.
  split.
  - intros Hq.
    exists (sum_of_quantities (cart w)). eexists.
    split; [apply getTotalItems_run|].
    pose proof (sum_of_quantities_ge_length _ Hq) as Hcount.
    split; [exact Hcount|]. split; [|split; [reflexivity|]].
    + split.
      * intros Hzero. destruct (cart w); [reflexivity|].
        cbn [List.length] in Hcount. lia.
      * intros ->. reflexivity.
    + intros Hp. apply fold_left_line_totals_nonneg; [exact Hq | exact Hp |].
      cbn. discriminate.
  - intros item Hin Hnan.
    destruct (in_split _ _ Hin) as (before & after & Heq).
    unfold calculateTotal, bind, get_cart, ret. rewrite Heq.
    rewrite fold_left_app. cbn [fold_left]. rewrite Hnan.
    cbn [JsNumber_to_Amount Amount_times].
    rewrite Amount_add_Undefined_r, fold_left_line_totals_Undefined.
    reflexivity.
Qed.

Lemma totals_of_positive_quantities_witness :
  (exists count total,
      getTotalItems sample_world = Normal count sample_world /\
      Z.of_nat (List.length (cart sample_world)) <= count /\
      (count = 0 <-> cart sample_world = []) /\
      calculateTotal sample_world = Normal total sample_world /\
      Amount_nonneg total) /\
  calculateTotal nan_world = Normal Undefined nan_world.
Proof.
  split.
  - destruct (proj1 (totals_of_positive_quantities sample_world))
      as (count & total & Hcount & Hlength & Hzero & Htotal & Hnonneg).
    + repeat constructor. cbn. lia.
    + exists count, total. repeat (split; [assumption|]).
      apply Hnonneg. repeat constructor. cbn. discriminate.
  - apply (proj2 (totals_of_positive_quantities nan_world) nan_line);
      [left; reflexivity | reflexivity].
Defined.

(* ================================================================= *)
(** ** Loading, once more *)


(* ================================================================= *)
(** ** Clicks on the cart icons *)

Lemma clickAll_addAll (clicks : list (Z * Z * Card)) (w : World) :
  clickAll clicks w = addAll (map product_of_click clicks) w.
Proof.
  revert w. induction clicks as [|[[now index] card] clicks IH]; intros w;
    [reflexivity|].
  cbn [clickAll map addAll]. unfold bind.
  change (clickAddToCart now index card w)
    with (addToCart (product_of_click (now, index, card)) w).
  destruct (addToCart _ w); [apply IH | reflexivity | reflexivity].
Qed.

(** X13.  Clicks on one cart icon at different times never raise a
    quantity: the id of a click is its time plus the index of the icon,
    so each click adds a line of its own, with quantity 1, in the order
    of the clicks. *)
Theorem clicks_on_one_icon_never_merge (index : Z) (card : Card)
    (times : list Z) entries shown open :
  NoDup times ->
  exists w',
    clickAll (map (fun now => (now, index, card)) times)
      (mkWorld [] entries shown open) = Normal tt w' /\
    cart w' =
    map (fun now => line_of_product (product_of_click (now, index, card)))
      times /\
    List.length (cart w') = List.length times /\
    Forall (fun line => quantity line = 1) (cart w').
Proof.
  intros Hnodup. rewrite clickAll_addAll.
  destruct (addAll_appends
              (map product_of_click (map (fun now => (now, index, card)) times))
              (mkWorld [] entries shown open)) as (w' & Hrun & Hcart).
  - cbn [cart map List.app]. rewrite !map_map. cbn [product_of_click product_id].
    clear -Hnodup. induction Hnodup as [|now times Hnotin _ IH];
      cbn [map]; constructor; [|exact IH].
    intros Hin. apply in_map_iff in Hin. destruct Hin as (now' & Heq & Hin).
    assert (now' = now) by lia. subst. contradiction.
  - cbn [cart List.app] in Hcart. rewrite !map_map in Hcart.
    exists w'. split; [exact Hrun|]. split; [exact Hcart|]. split.
    + rewrite Hcart. apply length_map.
    + rewrite Hcart. apply Forall_forall. intros line Hin.
      apply in_map_iff in Hin. destruct Hin as (now & <- & _). reflexivity.
Qed.

Lemma clicks_on_one_icon_never_merge_witness :
  exists w',
    clickAll (map (fun now => (now, 3, mkCard (Some "A"%string) None None))
                [1700000000000; 1700000000250])
      empty_world = Normal tt w' /\
    List.length (cart w') = 2%nat /\
    Forall (fun line => quantity line = 1) (cart w').
Proof.
  destruct (clicks_on_one_icon_never_merge 3
              (mkCard (Some "A"%string) None None)
              [1700000000000; 1700000000250] [] [] false)
    as (w' & Hrun & _ & Hlength & Hone).
  - repeat constructor; cbn; intuition discriminate.
  - exists w'. split; [exact Hrun|]. split; [exact Hlength | exact Hone].
Defined.

(** X14.  Two clicks whose time plus icon index coincide are taken for
    one product, even on different cards: the second click raises the
    quantity of the line of the first and nothing of its own card gets
    into the cart. *)
Theorem clicks_with_equal_ids_merge (now1 index1 now2 index2 : Z)
    (card1 card2 : Card) entries shown open :
  now1 + index1 = now2 + index2 ->
  exists w',
    clickAll [(now1, index1, card1); (now2, index2, card2)]
      (mkWorld [] entries shown open) = Normal tt w' /\
    cart w' =
    [with_quantity_added 1
       (line_of_product (product_of_click (now1, index1, card1)))] /\
    notifications w' =
    shown ++ ["Added to cart!"%string; "Quantity updated in cart!"%string].
Proof.
  intros Hsame. rewrite clickAll_addAll. cbn [map addAll]. unfold bind.
  set (p1 := product_of_click (now1, index1, card1)).
  set (p2 := product_of_click (now2, index2, card2)).
  assert (Hid : (id (line_of_product p1) =? product_id p2) = true)
    by (apply Z.eqb_eq; exact Hsame).
  rewrite addToCart_run. cbn [cart find]. cbv beta iota zeta.
  rewrite addToCart_run. cbn [cart List.app find].
  fold (line_of_product p1). rewrite Hid. cbv beta iota zeta.
  eexists. split; [reflexivity|].
  cbn [cart notifications add_quantity]. rewrite Hid.
  split; [reflexivity|]. rewrite <- List.app_assoc. reflexivity.
Qed.

Lemma clicks_with_equal_ids_merge_witness :
  exists w',
    clickAll [(1700000000000, 1, mkCard (Some "A"%string) None None);
              (1700000000001, 0, mkCard (Some "B"%string) None None)]
      empty_world = Normal tt w' /\
    cart w' =
    [mkCartLine 1700000000001 "A"
       (JsNumber_of_Decimal (mkDecimal 9 FZero)) "" 2].
Proof.
  destruct (clicks_with_equal_ids_merge 1700000000000 1 1700000000001 0
              (mkCard (Some "A"%string) None None)
              (mkCard (Some "B"%string) None None) [] [] false)
    as (w' & Hrun & Hcart & _); [reflexivity|].
  exists w'. split; [exact Hrun | exact Hcart].
Defined.

(* ================================================================= *)
(** ** The badge *)

(** X15.  [updateCartBadge] leaves the badge with the count of items as
    its text when the count is positive and there is a badge or a cart
    link to hang one on, leaves no badge when the count is 0 or less,
    and leaves the page alone when the count is positive but there is
    neither badge nor link.  Running it again changes nothing. *)
Theorem updateCartBadge_follows_count (w : World) (p : Dom.Page) :
  Dom.cartLink (Dom.updateCartBadge w p) = Dom.cartLink p /\
  (sum_of_quantities (cart w) <= 0 ->
   Dom.badge (Dom.updateCartBadge w p) = None) /\
  (0 < sum_of_quantities (cart w) ->
   Dom.cartLink p = true \/ Dom.badge p <> None ->
   Dom.badge (Dom.updateCartBadge w p) =
   Some (Number_to_string (Number_of_Z (sum_of_quantities (cart w))))) /\
  (0 < sum_of_quantities (cart w) ->
   Dom.cartLink p = false -> Dom.badge p = None ->
   Dom.updateCartBadge w p = p) /\
  Dom.updateCartBadge w (Dom.updateCartBadge w p) = Dom.updateCartBadge w p.
Proof.
  unfold Dom.updateCartBadge. rewrite getTotalItems_run.
  destruct (Z.ltb_spec 0 (sum_of_quantities (cart w))) as [Hpos|Hle].
  - destruct p as [[text|] [|]]; cbn;
      (split; [reflexivity|]); (split; [intros; lia|]);
      (split; [intros _ [H|H]; congruence|]);
      (split; [intros _ H1 H2; congruence|]); reflexivity.
  - cbn. split; [reflexivity|]. split; [reflexivity|].
    split; [intros; lia|]. split; [intros; lia|]. reflexivity.
Qed.

Lemma updateCartBadge_follows_count_witness :
  Dom.badge (Dom.updateCartBadge sample_world (Dom.mkPage None true)) =
  Some "1"%string /\
  Dom.badge (Dom.updateCartBadge empty_world (Dom.mkPage (Some "1"%string) true)) =
  None.
Proof.
  split.
  - destruct (updateCartBadge_follows_count sample_world (Dom.mkPage None true))
      as (_ & _ & Hshown & _).
    rewrite Hshown; [reflexivity | cbn; lia | left; reflexivity].
  - destruct (updateCartBadge_follows_count empty_world
                (Dom.mkPage (Some "1"%string) true)) as (_ & Hhidden & _).
    apply Hhidden. cbn. lia.
Defined.

(* ================================================================= *)
(** ** The slideshow *)

Import Slideshow.

Local Open Scope nat_scope.

Lemma update_at_some {A : Type} (f : A -> A) (l : list A) :
  forall i,
    i < List.length l ->
    exists l',
      update_at i f l = Some l' /\
      List.length l' = List.length l /\
      forall j,
        nth_error l' j =
        if j =? i then option_map f (nth_error l j) else nth_error l j.
Proof.
  induction l as [|x l IH]; intros i Hi; [cbn in Hi; lia|].
  destruct i as [|i].
  - exists (f x :: l). split; [reflexivity|]. split; [reflexivity|].
    intros [|j]; reflexivity.
  - destruct (IH i) as (l' & Hl' & Hlen & Hnth); [cbn in Hi; lia|].
    exists (x :: l'). cbn [update_at]. rewrite Hl'.
    split; [reflexivity|]. split; [cbn; rewrite Hlen; reflexivity|].
    intros [|j]; [reflexivity|]. cbn [nth_error]. rewrite Hnth. reflexivity.
Qed.

Lemma update_at_none {A : Type} (f : A -> A) (l : list A) :
  forall i, List.length l <= i -> update_at i f l = None.
Proof.
  induction l as [|x l IH]; intros i Hi; [destruct i; reflexivity|].
  destruct i as [|i]; [cbn in Hi; lia|].
  cbn [update_at]. rewrite IH; [reflexivity | cbn in Hi; lia].
Qed.

Lemma nth_error_constant {A B : Type} (b : B) (l : list A) (j : nat) :
  nth_error (map (fun _ => b) l) j =
  if j <? List.length l then Some b else None.
Proof.
  revert j. induction l as [|x l IH]; intros [|j]; try reflexivity.
  cbn [map nth_error List.length]. rewrite IH. reflexivity.
Qed.

(** What [goToSlide] does when the slide and the dot are there. *)
Lemma goToSlide_done (index : nat) (s : State) :
  currentSlide s < List.length (slides s) ->
  index < List.length (slides s) ->
  index < List.length (dots s) ->
  exists s',
    goToSlide index s = Done s' /\
    currentSlide s' = index /\
    autoSlideInterval s' = autoSlideInterval s /\
    intervals s' = intervals s /\
    List.length (slides s') = List.length (slides s) /\
    List.length (dots s') = List.length (dots s) /\
    (forall i slide,
        nth_error (slides s') i = Some slide ->
        (active slide = true <-> i = index) /\
        (prev slide = true <-> i = currentSlide s /\ currentSlide s <> index)) /\
    (forall i dot,
        nth_error (dots s') i = Some dot -> (dot = true <-> i = index)).
Proof.
  intros Hcurrent Hslide Hdot. unfold goToSlide.
  set (cleared := map (fun _ => mkSlide false false) (slides s)).
  set (plain := map (fun _ => false) (dots s)).
  assert (Hcleared : List.length cleared = List.length (slides s))
    by apply length_map.
  assert (Hplain : List.length plain = List.length (dots s))
    by apply length_map.
  assert (Hmarked : exists marked,
             (if currentSlide s =? index then Some cleared
              else update_at (currentSlide s)
                     (fun slide => mkSlide (active slide) true) cleared) =
             Some marked /\
             List.length marked = List.length (slides s) /\
             forall j slide,
               nth_error marked j = Some slide ->
               active slide = false /\
               (prev slide = true <->
                j = currentSlide s /\ currentSlide s <> index)).
  { destruct (Nat.eqb_spec (currentSlide s) index) as [Heq|Hneq].
    - exists cleared. split; [reflexivity|]. split; [exact Hcleared|].
      intros j slide Hj. unfold cleared in Hj.
      rewrite nth_error_constant in Hj.
      destruct (j <? List.length (slides s)); [|discriminate].
      injection Hj as <-. cbn. split; [reflexivity|].
      split; [discriminate | intros [_ H]; contradiction].
    - destruct (update_at_some (fun slide => mkSlide (active slide) true)
                  cleared (currentSlide s)) as (marked & Hm & Hlen & Hnth);
        [rewrite Hcleared; exact Hcurrent|].
      exists marked. split; [exact Hm|]. split; [congruence|].
      intros j slide Hj. rewrite Hnth in Hj. unfold cleared in Hj.
      rewrite nth_error_constant in Hj.
      destruct (Nat.eqb_spec j (currentSlide s)) as [->|Hj'].
      + destruct (currentSlide s <? List.length (slides s)); [|discriminate].
        injection Hj as <-. cbn. tauto.
      + destruct (j <? List.length (slides s)); [|discriminate].
        injection Hj as <-. cbn. split; [reflexivity|].
        split; [discriminate | intros [H _]; contradiction]. }
  destruct Hmarked as (marked & -> & Hmlen & Hmnth).
  destruct (update_at_some (fun slide => mkSlide true (prev slide)) marked index)
    as (shown & -> & Hslen & Hsnth); [rewrite Hmlen; exact Hslide|].
  destruct (update_at_some (fun _ : bool => true) plain index)
    as (lit & -> & Hllen & Hlnth); [rewrite Hplain; exact Hdot|].
  eexists. split; [reflexivity|]. cbn [currentSlide autoSlideInterval
    intervals slides dots].
  repeat (split; [reflexivity || congruence|]). split.
  - intros i slide Hi. rewrite Hsnth in Hi.
    destruct (Nat.eqb_spec i index) as [->|Hneq].
    + destruct (nth_error marked index) as [m|] eqn:Hm; [|discriminate].
      injection Hi as <-. cbn. destruct (Hmnth _ _ Hm) as [_ Hprev].
      split; [tauto | exact Hprev].
    + destruct (Hmnth _ _ Hi) as [Hact Hprev]. rewrite Hact.
      split; [split; [discriminate | contradiction] | exact Hprev].
  - intros i dot Hi. rewrite Hlnth in Hi. unfold plain in Hi.
    rewrite nth_error_constant in Hi.
    destruct (Nat.eqb_spec i index) as [->|Hneq].
    + destruct (index <? List.length (dots s)); [|discriminate].
      injection Hi as <-. tauto.
    + destruct (i <? List.length (dots s)); [|discriminate].
      injection Hi as <-. split; [discriminate | contradiction].
Qed.

Lemma goToSlide_well_formed (index : nat) (s : State) :
  well_formed s -> index < List.length (slides s) ->
  exists s',
    goToSlide index s = Done s' /\
    well_formed s' /\
    currentSlide s' = index /\
    List.length (slides s') = List.length (slides s) /\
    autoSlideInterval s' = autoSlideInterval s /\
    intervals s' = intervals s /\
    only_active index (slides s').
Proof.
  intros (Hpos & Hdots & Hcurrent) Hindex.
  destruct (goToSlide_done index s Hcurrent Hindex)
    as (s' & Hrun & Hc & Ha & Hi & Hls & Hld & Hslides & _);
    [rewrite Hdots; exact Hindex|].
  exists s'. split; [exact Hrun|]. split.
  - unfold well_formed. rewrite Hls, Hld, Hc. auto.
  - repeat (split; [assumption|]).
    intros i slide Hnth. apply (Hslides i slide Hnth).
Qed.

(** X16.  In a slideshow with as many dots as slides, [goToSlide] to
    one of the slides completes and leaves exactly that slide and that
    dot active; the slide that was current before, if it is another one,
    is the only one marked as previous. *)
Theorem goToSlide_shows_one_slide (index : nat) (s : State) :
  well_formed s -> index < List.length (slides s) ->
  exists s',
    goToSlide index s = Done s' /\
    well_formed s' /\
    currentSlide s' = index /\
    only_active index (slides s') /\
    (forall i dot,
        nth_error (dots s') i = Some dot -> (dot = true <-> i = index)) /\
    (forall i slide,
        nth_error (slides s') i = Some slide ->
        (prev slide = true <->
         i = currentSlide s /\ currentSlide s <> index)).
Proof.
  intros (Hpos & Hdots & Hcurrent) Hindex.
  destruct (goToSlide_done index s Hcurrent Hindex)
    as (s' & Hrun & Hc & _ & _ & Hls & Hld & Hslides & Hdot);
    [rewrite Hdots; exact Hindex|].
  exists s'. split; [exact Hrun|]. split.
  - unfold well_formed. rewrite Hls, Hld, Hc. auto.
  - split; [exact Hc|]. split.
    + intros i slide Hnth. apply (Hslides i slide Hnth).
    + split; [exact Hdot|].
      intros i slide Hnth. apply (Hslides i slide Hnth).
Qed.

Lemma nextSlide_well_formed (s : State) :
  well_formed s ->
  exists s',
    nextSlide s = Done s' /\
    well_formed s' /\
    currentSlide s' = (currentSlide s + 1) mod List.length (slides s) /\
    List.length (slides s') = List.length (slides s) /\
    autoSlideInterval s' = autoSlideInterval s /\
    intervals s' = intervals s /\
    only_active (currentSlide s') (slides s').
Proof.
  intros Hwf. unfold nextSlide.
  destruct (goToSlide_well_formed
              ((currentSlide s + 1) mod List.length (slides s)) s Hwf)
    as (s' & Hrun & Hwf' & Hc & Hl & Ha & Hi & Hact).
  - apply Nat.mod_upper_bound. destruct Hwf as (Hpos & _). lia.
  - exists s'. split; [exact Hrun|]. split; [exact Hwf'|].
    split; [exact Hc|]. split; [exact Hl|]. split; [exact Ha|].
    split; [exact Hi|]. rewrite Hc. exact Hact.
Qed.

Lemma advance_steps (k : nat) :
  forall s,
    well_formed s ->
    exists s',
      advance k s = Done s' /\
      well_formed s' /\
      List.length (slides s') = List.length (slides s) /\
      autoSlideInterval s' = autoSlideInterval s /\
      intervals s' = intervals s /\
      currentSlide s' = (currentSlide s + k) mod List.length (slides s).
Proof.
  induction k as [|k IH]; intros s Hwf.
  - exists s. split; [reflexivity|]. split; [exact Hwf|].
    repeat (split; [reflexivity|]).
    rewrite Nat.add_0_r, Nat.mod_small; [reflexivity|].
    destruct Hwf as (_ & _ & H). exact H.
  - destruct (nextSlide_well_formed s Hwf)
      as (s1 & Hrun1 & Hwf1 & Hc1 & Hl1 & Ha1 & Hi1 & _).
    destruct (IH s1 Hwf1) as (s' & Hrun & Hwf' & Hl & Ha & Hi & Hc).
    exists s'. cbn [advance]. rewrite Hrun1.
    split; [exact Hrun|]. split; [exact Hwf'|].
    split; [congruence|]. split; [congruence|]. split; [congruence|].
    rewrite Hc, Hc1, Hl1.
    rewrite Nat.Div0.add_mod_idemp_l. f_equal. lia.
Qed.

(** X17.  In a slideshow with as many dots as slides, [nextSlide] never
    fails and moves one slide on, from the last slide to the first: after
    [k] calls the current slide is the one [k] places on, counted round,
    and after as many calls as there are slides it is the one the
    slideshow started from. *)
Theorem nextSlide_goes_round (k : nat) (s : State) :
  well_formed s ->
  (exists s',
      advance k s = Done s' /\
      well_formed s' /\
      currentSlide s' = (currentSlide s + k) mod List.length (slides s)) /\
  (exists s',
      advance (List.length (slides s)) s = Done s' /\
      currentSlide s' = currentSlide s).
Proof.
  intros Hwf. split.
  - destruct (advance_steps k s Hwf) as (s' & Hrun & Hwf' & _ & _ & _ & Hc).
    exists s'. auto.
  - destruct (advance_steps (List.length (slides s)) s Hwf)
      as (s' & Hrun & _ & _ & _ & _ & Hc).
    exists s'. split; [exact Hrun|]. rewrite Hc.
    destruct Hwf as (_ & _ & Hcurrent).
    replace (currentSlide s + List.length (slides s))
      with (currentSlide s + 1 * List.length (slides s)) by lia.
    rewrite Nat.Div0.mod_add. apply Nat.mod_small. exact Hcurrent.
Qed.

Lemma clearInterval_same (s : State) :
  slides (clearInterval s) = slides s /\
  dots (clearInterval s) = dots s /\
  currentSlide (clearInterval s) = currentSlide s /\
  autoSlideInterval (clearInterval s) = autoSlideInterval s.
Proof.
  unfold clearInterval. destruct (autoSlideInterval s) eqn:E; cbn; auto.
Qed.

Lemma clearInterval_well_formed (s : State) :
  well_formed s -> well_formed (clearInterval s).
Proof.
  unfold well_formed.
  destruct (clearInterval_same s) as (-> & -> & -> & _). auto.
Qed.

(** X18.  In a slideshow with as many dots as slides, no handler fails:
    entering, leaving, a click on any of the dots and a tick of a timer
    complete and leave as many dots as slides and a current slide that
    exists. *)
Theorem handlers_keep_well_formed (e : Event) (s : State) :
  well_formed s ->
  (forall index, e = DotClick index -> index < List.length (dots s)) ->
  exists s',
    handle e s = Done s' /\
    well_formed s' /\
    List.length (slides s') = List.length (slides s).
Proof.
  intros Hwf Hdot. destruct e as [timer| |index|timer]; cbn [handle].
  - unfold mouseenter. destruct (1 <? List.length (slides s));
      eexists; (split; [reflexivity|]); split; auto.
  - unfold mouseleave.
    destruct (goToSlide_well_formed 0 (clearInterval s))
      as (s' & Hrun & Hwf' & _ & Hl & _);
      [apply clearInterval_well_formed; exact Hwf | |].
    + destruct (clearInterval_same s) as (-> & _). destruct Hwf. lia.
    + exists s'. destruct (clearInterval_same s) as (Hs & _).
      rewrite Hs in Hl. auto.
  - unfold dotClick.
    destruct (goToSlide_well_formed index (clearInterval s))
      as (s' & Hrun & Hwf' & _ & Hl & _);
      [apply clearInterval_well_formed; exact Hwf | |].
    + destruct (clearInterval_same s) as (-> & _).
      destruct Hwf as (_ & <- & _). apply Hdot. reflexivity.
    + exists s'. destruct (clearInterval_same s) as (Hs & _).
      rewrite Hs in Hl. auto.
  - unfold tick. destruct (existsb (Nat.eqb timer) (intervals s)).
    + destruct (nextSlide_well_formed s Hwf)
        as (s' & Hrun & Hwf' & _ & Hl & _).
      exists s'. auto.
    + exists s. auto.
Qed.

Lemma In_constant {A B : Type} (b x : B) (l : list A) :
  In x (map (fun _ => b) l) -> x = b.
Proof.
  intros Hin. apply in_map_iff in Hin. destruct Hin as (_ & <- & _).
  reflexivity.
Qed.

(** Once [currentSlide] is no slide, [goToSlide] fails wherever it is
    sent, and leaves [currentSlide] where it was and no slide active. *)
Lemma goToSlide_broken (j : nat) (s : State) :
  List.length (slides s) <= currentSlide s ->
  exists s',
    goToSlide j s = TypeError s' /\
    currentSlide s' = currentSlide s /\
    List.length (slides s') = List.length (slides s) /\
    intervals s' = intervals s /\
    autoSlideInterval s' = autoSlideInterval s /\
    forall slide, In slide (slides s') -> active slide = false.
Proof.
  intros Hout. unfold goToSlide.
  set (cleared := map (fun _ => mkSlide false false) (slides s)).
  assert (Hcleared : List.length cleared = List.length (slides s))
    by apply length_map.
  assert (Hinactive : forall slide, In slide cleared -> active slide = false).
  { intros slide Hin. apply In_constant in Hin. subst. reflexivity. }
  destruct (Nat.eqb_spec (currentSlide s) j) as [Heq|Hneq].
  - rewrite update_at_none by (rewrite Hcleared; lia).
    eexists. split; [reflexivity|]. cbn. repeat split; auto.
  - rewrite update_at_none by (rewrite Hcleared; lia).
    eexists. split; [reflexivity|]. cbn. repeat split; auto.
Qed.

Lemma handle_broken (e : Event) (s : State) :
  List.length (slides s) <= currentSlide s ->
  (forall slide, In slide (slides s) -> active slide = false) ->
  exists s',
    (handle e s = Done s' \/ handle e s = TypeError s') /\
    List.length (slides s') <= currentSlide s' /\
    (forall slide, In slide (slides s') -> active slide = false).
Proof.
  intros Hout Hinactive.
  assert (Hgo : forall j s0,
             slides s0 = slides s -> currentSlide s0 = currentSlide s ->
             exists s',
               (goToSlide j s0 = Done s' \/ goToSlide j s0 = TypeError s') /\
               List.length (slides s') <= currentSlide s' /\
               (forall slide, In slide (slides s') -> active slide = false)).
  { intros j s0 Hs Hc.
    destruct (goToSlide_broken j s0) as (s' & Hrun & Hc' & Hl & _ & _ & Hin);
      [rewrite Hs, Hc; exact Hout|].
    exists s'. split; [right; exact Hrun|]. split; [|exact Hin].
    rewrite Hl, Hc', Hs, Hc. exact Hout. }
  destruct (clearInterval_same s) as (Hs & _ & Hc & _).
  destruct e as [timer| |index|timer]; cbn [handle].
  - unfold mouseenter. destruct (1 <? List.length (slides s));
      eexists; (split; [left; reflexivity|]); split; auto.
  - apply (Hgo 0 _ Hs Hc).
  - apply (Hgo index _ Hs Hc).
  - unfold tick. destruct (existsb (Nat.eqb timer) (intervals s)).
    + apply (Hgo _ s eq_refl eq_refl).
    + exists s. auto.
Qed.

Lemma run_broken (events : list Event) :
  forall s,
    List.length (slides s) <= currentSlide s ->
    (forall slide, In slide (slides s) -> active slide = false) ->
    forall slide, In slide (slides (run events s)) -> active slide = false.
Proof.
  induction events as [|e events IH]; intros s Hout Hinactive;
    [exact Hinactive|].
  destruct (handle_broken e s Hout Hinactive) as (s' & [Hrun|Hrun] & Hout' & Hin');
    cbn [run]; rewrite Hrun; apply IH; assumption.
Qed.

(** X19.  A click on a dot that has no slide (a card with more dots than
    slides) fails with a [TypeError], after [currentSlide] took the
    index of the dot, and breaks the slideshow for good: whatever events
    follow, no slide is active any more. *)
Theorem dot_without_slide_breaks (index : nat) (s : State) :
  currentSlide s < List.length (slides s) ->
  List.length (slides s) <= index ->
  exists s',
    dotClick index s = TypeError s' /\
    currentSlide s' = index /\
    forall events slide,
      In slide (slides (run events s')) -> active slide = false.
Proof.
  intros Hcurrent Hindex. unfold dotClick, goToSlide.
  destruct (clearInterval_same s) as (-> & _ & -> & _).
  set (cleared := map (fun _ => mkSlide false false) (slides s)).
  assert (Hcleared : List.length cleared = List.length (slides s))
    by apply length_map.
  destruct (Nat.eqb_spec (currentSlide s) index) as [Heq|Hneq]; [lia|].
  destruct (update_at_some (fun slide => mkSlide (active slide) true)
              cleared (currentSlide s)) as (marked & -> & Hlen & Hnth);
    [rewrite Hcleared; exact Hcurrent|].
  rewrite update_at_none by (rewrite Hlen, Hcleared; exact Hindex).
  eexists. split; [reflexivity|]. cbn [currentSlide]. split; [reflexivity|].
  intros events. apply run_broken; cbn [slides currentSlide].
  - rewrite Hlen, Hcleared. exact Hindex.
  - intros slide Hin. apply In_nth_error in Hin. destruct Hin as (i & Hi).
    rewrite Hnth in Hi. unfold cleared in Hi.
    rewrite nth_error_constant in Hi.
    destruct (i =? currentSlide s), (i <? List.length (slides s));
      try discriminate; injection Hi as <-; reflexivity.
Qed.

Lemma run_app (a b : list Event) :
  forall s, run (a ++ b) s = run b (run a s).
Proof.
  induction a as [|e a IH]; intros s; [reflexivity|].
  cbn [run List.app]. destruct (handle e s); apply IH.
Qed.

Lemma existsb_eqb_In (timer : nat) (l : list nat) :
  existsb (Nat.eqb timer) l = true <-> In timer l.
Proof.
  rewrite existsb_exists. split.
  - intros (x & Hin & Heq). apply Nat.eqb_eq in Heq. subst. exact Hin.
  - intros Hin. exists timer. split; [exact Hin | apply Nat.eqb_refl].
Qed.

Lemma run_ticks_running (timer k : nat) :
  forall s,
    well_formed s -> In timer (intervals s) ->
    well_formed (run (repeat (Tick timer) k) s) /\
    List.length (slides (run (repeat (Tick timer) k) s)) =
    List.length (slides s) /\
    autoSlideInterval (run (repeat (Tick timer) k) s) = autoSlideInterval s /\
    intervals (run (repeat (Tick timer) k) s) = intervals s /\
    currentSlide (run (repeat (Tick timer) k) s) =
    (currentSlide s + k) mod List.length (slides s).
Proof.
  induction k as [|k IH]; intros s Hwf Hin.
  - cbn [repeat run]. split; [exact Hwf|]. repeat (split; [reflexivity|]).
    rewrite Nat.add_0_r, Nat.mod_small; [reflexivity|].
    destruct Hwf as (_ & _ & H). exact H.
  - cbn [repeat run handle]. unfold tick.
    rewrite (proj2 (existsb_eqb_In _ _) Hin).
    destruct (nextSlide_well_formed s Hwf)
      as (s1 & -> & Hwf1 & Hc1 & Hl1 & Ha1 & Hi1 & _).
    destruct (IH s1 Hwf1) as (Hwf' & Hl & Ha & Hi & Hc);
      [rewrite Hi1; exact Hin|].
    split; [exact Hwf'|]. split; [congruence|]. split; [congruence|].
    split; [congruence|].
    rewrite Hc, Hc1, Hl1, Nat.Div0.add_mod_idemp_l. f_equal. lia.
Qed.

Lemma run_ticks_stopped (timer k : nat) (s : State) :
  ~ In timer (intervals s) -> run (repeat (Tick timer) k) s = s.
Proof.
  intros Hnot. induction k as [|k IH]; [reflexivity|].
  cbn [repeat run handle]. unfold tick.
  destruct (existsb (Nat.eqb timer) (intervals s)) eqn:E.
  - apply existsb_eqb_In in E. contradiction.
  - exact IH.
Qed.

(** The state after the pointer entered a card with several slides and
    the interval fired [k] times. *)
Lemma run_hover (timer k : nat) (s : State) :
  well_formed s -> intervals s = [] -> 1 < List.length (slides s) ->
  let hovered := run (MouseEnter timer :: repeat (Tick timer) k) s in
  well_formed hovered /\
  List.length (slides hovered) = List.length (slides s) /\
  List.length (dots hovered) = List.length (dots s) /\
  autoSlideInterval hovered = Some timer /\
  intervals hovered = [timer] /\
  currentSlide hovered = (currentSlide s + k) mod List.length (slides s).
Proof.
  intros Hwf Hnone Hmany. cbn [run handle]. unfold mouseenter.
  apply Nat.ltb_lt in Hmany. rewrite Hmany.
  set (s1 := mkState (slides s) (dots s) (currentSlide s) (Some timer)
               (timer :: intervals s)).
  assert (Hwf1 : well_formed s1) by exact Hwf.
  destruct (run_ticks_running timer k s1 Hwf1)
    as (Hwf' & Hl & Ha & Hi & Hc); [left; reflexivity|].
  cbv zeta. split; [exact Hwf'|]. split; [exact Hl|]. split.
  - destruct Hwf' as (_ & -> & _). destruct Hwf as (_ & -> & _). exact Hl.
  - split; [exact Ha|]. split; [|exact Hc].
    rewrite Hi. cbn. rewrite Hnone. reflexivity.
Qed.

Lemma clearInterval_running (timer : nat) (s : State) :
  autoSlideInterval s = Some timer -> intervals s = [timer] ->
  intervals (clearInterval s) = [].
Proof.
  intros Ha Hi. unfold clearInterval. rewrite Ha. cbn. rewrite Hi. cbn.
  rewrite Nat.eqb_refl. reflexivity.
Qed.

(** X20.  In a slideshow with as many dots as slides and no interval
    running: while the pointer is over a card with several slides, every
    tick of the interval moves one slide on.  Leaving the card, or a
    click on one of the dots, clears the interval and shows the first
    slide, or the slide of the dot: ticks of that interval that come
    later move nothing. *)
Theorem leaving_or_clicking_stops_the_interval (timer k later : nat)
    (s : State) :
  well_formed s -> intervals s = [] -> 1 < List.length (slides s) ->
  currentSlide (run (MouseEnter timer :: repeat (Tick timer) k) s) =
  (currentSlide s + k) mod List.length (slides s) /\
  (let left :=
     run (MouseEnter timer :: repeat (Tick timer) k ++
          MouseLeave :: repeat (Tick timer) later) s in
   currentSlide left = 0 /\ intervals left = [] /\
   only_active 0 (slides left)) /\
  (forall index,
      index < List.length (dots s) ->
      let clicked :=
        run (MouseEnter timer :: repeat (Tick timer) k ++
             DotClick index :: repeat (Tick timer) later) s in
      currentSlide clicked = index /\ intervals clicked = [] /\
      only_active index (slides clicked)).
Proof.
  intros Hwf Hnone Hmany.
  destruct (run_hover timer k s Hwf Hnone Hmany)
    as (Hwf' & Hl & Hd & Ha & Hi & Hc).
  split; [exact Hc|].
  assert (Hstop : forall index stop,
             index < List.length (slides s) ->
             (forall s0, handle stop s0 = goToSlide index (clearInterval s0)) ->
             let after :=
               run (MouseEnter timer :: repeat (Tick timer) k ++
                    stop :: repeat (Tick timer) later) s in
             currentSlide after = index /\ intervals after = [] /\
             only_active index (slides after)).
  { intros index stop Hindex Hstop.
    change (MouseEnter timer :: repeat (Tick timer) k ++
            stop :: repeat (Tick timer) later)
      with ((MouseEnter timer :: repeat (Tick timer) k) ++
            stop :: repeat (Tick timer) later).
    rewrite run_app.
    set (hovered := run (MouseEnter timer :: repeat (Tick timer) k) s) in *.
    cbn [run]. rewrite Hstop.
    destruct (goToSlide_well_formed index (clearInterval hovered))
      as (s' & -> & _ & Hc' & _ & _ & Hi' & Hact).
    - apply clearInterval_well_formed. exact Hwf'.
    - destruct (clearInterval_same hovered) as (-> & _). rewrite Hl.
      exact Hindex.
    - rewrite (clearInterval_running timer hovered Ha Hi) in Hi'.
      rewrite run_ticks_stopped by (rewrite Hi'; intros []).
      cbv zeta. auto. }
  split.
  - apply (Hstop 0 MouseLeave); [lia | reflexivity].
  - intros index Hindex. apply (Hstop index (DotClick index)); [|reflexivity].
    destruct Hwf as (_ & <- & _). exact Hindex.
Qed.

(** X21.  [initializeSlideshow] sets nothing up on a card without slides
    or without dots.  On any other card it completes with the first
    slide, and that slide only, active, the first dot lit, no slide
    marked as previous and no interval running. *)
Theorem initializeSlideshow_first_slide (cardSlides : list Slide)
    (cardDots : list bool) :
  (cardSlides = [] \/ cardDots = [] ->
   initializeSlideshow cardSlides cardDots = None) /\
  (cardSlides <> [] -> cardDots <> [] ->
   exists s,
     initializeSlideshow cardSlides cardDots = Some (Done s) /\
     currentSlide s = 0 /\
     List.length (slides s) = List.length cardSlides /\
     List.length (dots s) = List.length cardDots /\
     only_active 0 (slides s) /\
     (forall i dot, nth_error (dots s) i = Some dot -> (dot = true <-> i = 0)) /\
     (forall slide, In slide (slides s) -> prev slide = false) /\
     intervals s = []).
Proof.
  unfold initializeSlideshow. split.
  - intros [-> | ->]; [reflexivity|].
    destruct cardSlides; reflexivity.
  - intros Hslides Hdots.
    destruct cardSlides as [|slide cardSlides]; [contradiction|].
    destruct cardDots as [|dot cardDots]; [contradiction|].
    cbn [List.length Nat.eqb orb].
    destruct (goToSlide_done 0
                (mkState (slide :: cardSlides) (dot :: cardDots) 0 None []))
      as (s & Hrun & Hc & _ & Hi & Hls & Hld & Hact & Hlit);
      try (cbn; lia).
    exists s. split; [rewrite Hrun; reflexivity|].
    split; [exact Hc|]. split; [exact Hls|]. split; [exact Hld|].
    split; [intros i sl Hnth; apply (Hact i sl Hnth)|].
    split; [exact Hlit|]. split; [|exact Hi].
    intros sl Hin. apply In_nth_error in Hin. destruct Hin as (i & Hnth).
    destruct (Hact i sl Hnth) as [_ Hprev]. cbn [currentSlide] in Hprev.
    destruct (prev sl); [|reflexivity].
    destruct (proj1 Hprev eq_refl) as [_ Hneq]. contradiction.
Qed.

(** *** The theorems of the slideshow at the sample cards *)

Lemma sample_slideshow_well_formed : well_formed sample_slideshow.
Proof. unfold well_formed. cbn. lia. Qed.

Lemma goToSlide_shows_one_slide_witness :
  exists s',
    goToSlide 2 sample_slideshow = Done s' /\
    well_formed s' /\
    currentSlide s' = 2 /\
    only_active 2 (slides s') /\
    (forall i dot,
        nth_error (dots s') i = Some dot -> (dot = true <-> i = 2)) /\
    (forall i slide,
        nth_error (slides s') i = Some slide ->
        (prev slide = true <->
         i = currentSlide sample_slideshow /\
         currentSlide sample_slideshow <> 2)).
Proof.
  apply (goToSlide_shows_one_slide 2 sample_slideshow).
  - exact sample_slideshow_well_formed.
  - cbn. lia.
Defined.

Lemma nextSlide_goes_round_witness :
  (exists s',
      advance 4 sample_slideshow = Done s' /\
      well_formed s' /\
      currentSlide s' = 1) /\
  (exists s',
      advance 3 sample_slideshow = Done s' /\
      currentSlide s' = 0).
Proof.
  apply (nextSlide_goes_round 4 sample_slideshow).
  exact sample_slideshow_well_formed.
Defined.

Lemma handlers_keep_well_formed_witness :
  exists s',
    handle (DotClick 1) sample_slideshow = Done s' /\
    well_formed s' /\
    List.length (slides s') = 3.
Proof.
  apply (handlers_keep_well_formed (DotClick 1) sample_slideshow).
  - exact sample_slideshow_well_formed.
  - intros index [= <-]. cbn. lia.
Defined.

Lemma dot_without_slide_breaks_witness :
  exists s',
    dotClick 2 lopsided_slideshow = TypeError s' /\
    currentSlide s' = 2 /\
    forall events slide,
      In slide (slides (run events s')) -> active slide = false.
Proof.
  apply (dot_without_slide_breaks 2 lopsided_slideshow); cbn; lia.
Defined.

Lemma leaving_or_clicking_stops_the_interval_witness :
  currentSlide (run (MouseEnter 7 :: repeat (Tick 7) 4) sample_slideshow) = 1 /\
  (let left :=
     run (MouseEnter 7 :: repeat (Tick 7) 4 ++
          MouseLeave :: repeat (Tick 7) 2) sample_slideshow in
   currentSlide left = 0 /\ intervals left = [] /\
   only_active 0 (slides left)) /\
  (forall index,
      index < 3 ->
      let clicked :=
        run (MouseEnter 7 :: repeat (Tick 7) 4 ++
             DotClick index :: repeat (Tick 7) 2) sample_slideshow in
      currentSlide clicked = index /\ intervals clicked = [] /\
      only_active index (slides clicked)).
Proof.
  apply (leaving_or_clicking_stops_the_interval 7 4 2 sample_slideshow).
  - exact sample_slideshow_well_formed.
  - reflexivity.
  - cbn. lia.
Defined.

Lemma initializeSlideshow_first_slide_witness :
  initializeSlideshow [] [true] = None /\
  exists s,
    initializeSlideshow (slides sample_slideshow) (dots sample_slideshow) =
    Some (Done s) /\
    currentSlide s = 0 /\
    only_active 0 (slides s) /\
    intervals s = [].
Proof.
  split.
  - apply (proj1 (initializeSlideshow_first_slide [] [true])).
    left. reflexivity.
  - destruct (proj2 (initializeSlideshow_first_slide
                       (slides sample_slideshow) (dots sample_slideshow)))
      as (s & Hrun & Hc & _ & _ & Hact & _ & _ & Hi);
      [discriminate | discriminate |].
    exists s. auto.
Defined.
